(** * The authentication service of final_work, embedded in Rocq

    Source: the [AuthService] class (sign-up, admin sign-up, sign-in,
    logout, token refresh).  Every method is an [async] function that
    talks to injected collaborators: the user repository, the refresh-token
    repository, the access-token cache, the token issuer and bcrypt.

    An [async] method is embedded as a computation in a state-and-exception
    monad over a [World] that holds the three stores, the generators of
    primary keys, token serials and salts, and the list of collaborator
    calls made so far.  A thrown exception keeps the world as it was when
    it was thrown: writes made before a [throw] stay. *)

From stdpp Require Import gmap strings list fin_maps.

Set Default Proof Using "Type".

(** ** Data model *)

Abbreviation UserId := nat (only parsing).
Abbreviation DeviceId := string (only parsing).

(** Modelled from the spec: [UserRoleEnum] of database/enums/roles.enum is
    not among the sources; the service names [ADMIN], and the spec has the
    role "enumerated: normal, admin". *)
Inductive UserRoleEnum := USER | ADMIN.

Inductive TokenKind := AccessKind | RefreshKind.

(** Modelled from the spec: the tokens minted by [TokenService], which is
    not among the sources: "mints a signed access token and a signed refresh
    token for a (user, device) pair", "a fresh, different token pair each
    time".  A token is its payload, its kind and the serial number of the
    minting that produced it. *)
Record Token := {
  tk_kind : TokenKind;
  tk_userId : UserId;
  tk_deviceId : DeviceId;
  tk_serial : nat;
}.

(** [TokenPairResDto] / [TokenResDto]: the two tokens and nothing else. *)
Module TokenPair.
Record t := {
  accessToken : Token;
  refreshToken : Token;
}.
End TokenPair.

(** The user entity, by the columns the service reads and writes. *)
Module UserEntity.
Record t := {
  id : UserId;
  email : string;
  password : string;
  role : UserRoleEnum;
}.
End UserEntity.

(** What [userRepository.create] returns: an entity that has no primary key
    yet, and no role unless one is assigned before [save]. *)
Module UserDraft.
Record t := {
  email : string;
  password : string;
  role : option UserRoleEnum;
}.
End UserDraft.

(** The projection [select: { id: true, password: true }] of [signIn]. *)
Module UserCredentials.
Record t := {
  id : UserId;
  password : string;
}.
End UserCredentials.

(** A row of the refresh-token table: the arguments of [saveToken]. *)
Module RefreshTokenEntity.
Record t := {
  userId : UserId;
  deviceId : DeviceId;
  refreshToken : Token;
}.
End RefreshTokenEntity.

(** The fields of the sign-up request that the service uses. *)
Module SignUpReqDto.
Record t := {
  email : string;
  password : string;
  deviceId : DeviceId;
}.
End SignUpReqDto.

(** [PickType(BaseAuthReqDto, ['deviceId', 'email', 'password'])]. *)
Module SignInReqDto.
Record t := {
  deviceId : DeviceId;
  email : string;
  password : string;
}.
End SignInReqDto.

(** The authenticated caller, as [logout] and [refreshToken] read it. *)
Module IUserData.
Record t := {
  userId : UserId;
  deviceId : DeviceId;
}.
End IUserData.

(** Modelled from the spec: [AuthMapper.toResponseDto] is not among the
    sources; it "returns user projection + token pair".  The projection
    keeps the identity, the email and the role and drops the hash. *)
Module UserResDto.
Record t := {
  id : UserId;
  email : string;
  role : UserRoleEnum;
}.
End UserResDto.

Module AuthUserResDto.
Record t := {
  user : UserResDto.t;
  tokens : TokenPair.t;
}.
End AuthUserResDto.

#[global] Instance UserRoleEnum_eq_dec : EqDecision UserRoleEnum.
Proof. solve_decision. Defined.
#[global] Instance TokenKind_eq_dec : EqDecision TokenKind.
Proof. solve_decision. Defined.
#[global] Instance Token_eq_dec : EqDecision Token.
Proof. solve_decision. Defined.
#[global] Instance TokenPair_eq_dec : EqDecision TokenPair.t.
Proof. solve_decision. Defined.

(** ** Exceptions and collaborator calls *)

(** The error kinds of the spec's taxonomy (NestJS exceptions), and the
    [TypeError] that JavaScript raises when a property of [null] is read. *)
Inductive Exception :=
  | ConflictException
  | UnauthorizedException
  | NotFoundException
  | TypeError.

#[global] Instance Exception_eq_dec : EqDecision Exception.
Proof. solve_decision. Defined.

(** One entry per call that reaches a collaborator, in the order in which
    the calls take effect. *)
Inductive Call :=
  | UserIsEmailUniq (email : string)
  | UserFindOne (email : string)
  | UserFindOneBy (id : UserId)
  | UserSave (id : UserId)
  | TokenGenerate (userId : UserId) (deviceId : DeviceId)
  | RefreshDelete (userId : UserId) (deviceId : DeviceId)
  | RefreshSaveToken (userId : UserId) (deviceId : DeviceId) (token : Token)
  | CacheRemoveToken (userId : UserId) (deviceId : DeviceId)
  | CacheSaveToken (userId : UserId) (deviceId : DeviceId) (token : Token).

#[global] Instance Call_eq_dec : EqDecision Call.
Proof. solve_decision. Defined.

(** ** The world *)

Record World := {
  users : list UserEntity.t;
  refreshTokens : list RefreshTokenEntity.t;
  accessTokens : gmap (UserId * DeviceId) Token;
  nextUserId : UserId;
  issued : nat;
  entropy : nat;
  calls : list Call;
}.

Definition initWorld : World := {|
  users := [];
  refreshTokens := [];
  accessTokens := ∅;
  nextUserId := 0;
  issued := 0;
  entropy := 0;
  calls := [];
|}.

Definition with_users (f : list UserEntity.t → list UserEntity.t) (w : World) : World :=
  {| users := f (users w); refreshTokens := refreshTokens w;
     accessTokens := accessTokens w; nextUserId := nextUserId w;
     issued := issued w; entropy := entropy w; calls := calls w |}.

Definition with_refreshTokens
    (f : list RefreshTokenEntity.t → list RefreshTokenEntity.t) (w : World) : World :=
  {| users := users w; refreshTokens := f (refreshTokens w);
     accessTokens := accessTokens w; nextUserId := nextUserId w;
     issued := issued w; entropy := entropy w; calls := calls w |}.

Definition with_accessTokens
    (f : gmap (UserId * DeviceId) Token → gmap (UserId * DeviceId) Token)
    (w : World) : World :=
  {| users := users w; refreshTokens := refreshTokens w;
     accessTokens := f (accessTokens w); nextUserId := nextUserId w;
     issued := issued w; entropy := entropy w; calls := calls w |}.

Definition with_nextUserId (f : UserId → UserId) (w : World) : World :=
  {| users := users w; refreshTokens := refreshTokens w;
     accessTokens := accessTokens w; nextUserId := f (nextUserId w);
     issued := issued w; entropy := entropy w; calls := calls w |}.

Definition with_issued (f : nat → nat) (w : World) : World :=
  {| users := users w; refreshTokens := refreshTokens w;
     accessTokens := accessTokens w; nextUserId := nextUserId w;
     issued := f (issued w); entropy := entropy w; calls := calls w |}.

Definition with_entropy (f : nat → nat) (w : World) : World :=
  {| users := users w; refreshTokens := refreshTokens w;
     accessTokens := accessTokens w; nextUserId := nextUserId w;
     issued := issued w; entropy := f (entropy w); calls := calls w |}.

Definition with_calls (f : list Call → list Call) (w : World) : World :=
  {| users := users w; refreshTokens := refreshTokens w;
     accessTokens := accessTokens w; nextUserId := nextUserId w;
     issued := issued w; entropy := entropy w; calls := f (calls w) |}.

(** ** The monad of asynchronous methods *)

Definition Async (A : Type) : Type := World → (Exception + A) * World.

#[global] Instance Async_ret : MRet Async := λ A a w, (inr a, w).

#[global] Instance Async_bind : MBind Async := λ A B k m w,
  match m w with
  | (inl e, w') => (inl e, w')
  | (inr a, w') => k a w'
  end.

Definition throw {A} (e : Exception) : Async A := λ w, (inl e, w).

Definition gets {A} (f : World → A) : Async A := λ w, (inr (f w), w).

Definition modify (f : World → World) : Async unit := λ w, (inr (), f w).

Definition record (c : Call) : Async unit := modify (with_calls (λ cs, cs ++ [c])).

(** [await Promise.all([p, q])]: both operations are started and the method
    goes on only when both have completed.  Which of the two takes effect
    first is not fixed by the program; it is the scheduler's choice. *)
Inductive Completion := FirstThenSecond | SecondThenFirst.

Definition promiseAll {A B} (o : Completion) (p : Async A) (q : Async B) : Async (A * B) :=
  match o with
  | FirstThenSecond => a ← p; b ← q; mret (a, b)
  | SecondThenFirst => b ← q; a ← p; mret (a, b)
  end.

(** ** Collaborators *)

(** bcrypt.  [bcrypt_hash salt data rounds] is [bcrypt.hash(data, rounds)]
    with the salt that the library drew; [bcrypt_compare data encrypted] is
    the boolean to which the promise of [bcrypt.compare(data, encrypted)]
    resolves.  Nothing is assumed about how the two relate. *)
Class Bcrypt := {
  bcrypt_hash : nat → string → nat → string;
  bcrypt_compare : string → string → bool;
}.

(** JavaScript values that reach a condition in the service: a boolean, or
    a promise object that will resolve to a boolean. *)
Inductive JsValue :=
  | JsBoolean (b : bool)
  | JsPromise (resolution : bool).

(** ECMAScript [ToBoolean]: every object is truthy, and a promise is an
    object. *)
Definition ToBoolean (v : JsValue) : bool :=
  match v with
  | JsBoolean b => b
  | JsPromise _ => true
  end.

(** [await v]: the resolution of a promise, wrapped again as a value. *)
Definition await (v : JsValue) : JsValue :=
  match v with
  | JsBoolean b => JsBoolean b
  | JsPromise b => JsBoolean b
  end.

(** The first property read on the result of a lookup ([user.id]): a
    [TypeError] when the lookup gave [null]. *)
Definition deref (user : option UserEntity.t) : Async UserEntity.t :=
  match user with
  | Some u => mret u
  | None => throw TypeError
  end.

(** *** User store *)

Definition findByEmail (email : string) (us : list UserEntity.t) : option UserEntity.t :=
  List.find (λ u, String.eqb (UserEntity.email u) email) us.

Definition findById (id : UserId) (us : list UserEntity.t) : option UserEntity.t :=
  List.find (λ u, Nat.eqb (UserEntity.id u) id) us.

Arguments findByEmail : simpl never.
Arguments findById : simpl never.

(** Modelled from the spec: [UserService.isEmailUniqOrThrow] is not among
    the sources: "email must be unique; violation fails with a Conflict-kind
    error (delegated check)". *)
Definition isEmailUniqOrThrow (email : string) : Async unit :=
  record (UserIsEmailUniq email);;
  found ← gets (λ w, findByEmail email (users w));
  match found with
  | Some _ => throw ConflictException
  | None => mret ()
  end.

(** [userRepository.findOne({ where: { email }, select: { id, password } })]. *)
Definition userRepository_findOne (email : string) : Async (option UserCredentials.t) :=
  record (UserFindOne email);;
  found ← gets (λ w, findByEmail email (users w));
  mret ((λ u, {| UserCredentials.id := UserEntity.id u;
                 UserCredentials.password := UserEntity.password u |}) <$> found).

(** [userRepository.findOneBy({ id })]. *)
Definition userRepository_findOneBy (id : UserId) : Async (option UserEntity.t) :=
  record (UserFindOneBy id);;
  gets (λ w, findById id (users w)).

(** [userRepository.create(fields)]: builds the entity, touches no store. *)
Definition userRepository_create (email password : string) : UserDraft.t :=
  {| UserDraft.email := email; UserDraft.password := password;
     UserDraft.role := None |}.

(** [userRepository.save(entity)]: the database generates the primary key
    and fills the role column with its default when none was assigned; the
    saved entity, now with its [id], is what the caller holds afterwards. *)
Definition userRepository_save (draft : UserDraft.t) : Async UserEntity.t :=
  newId ← gets nextUserId;
  let user := {| UserEntity.id := newId;
                 UserEntity.email := UserDraft.email draft;
                 UserEntity.password := UserDraft.password draft;
                 UserEntity.role := default USER (UserDraft.role draft) |} in
  record (UserSave newId);;
  modify (with_nextUserId S);;
  modify (with_users (λ us, us ++ [user]));;
  mret user.

(** *** Refresh-token store *)

Definition sameSession (userId : UserId) (deviceId : DeviceId)
    (r : RefreshTokenEntity.t) : Prop :=
  RefreshTokenEntity.userId r = userId ∧ RefreshTokenEntity.deviceId r = deviceId.

#[global] Instance sameSession_dec userId deviceId r : Decision (sameSession userId deviceId r).
Proof. unfold sameSession. apply _. Defined.

(** [refreshRepository.delete({ userId, deviceId })]: removes every row that
    matches the criteria; no error when none does. *)
Definition refreshRepository_delete (userId : UserId) (deviceId : DeviceId) : Async unit :=
  record (RefreshDelete userId deviceId);;
  modify (with_refreshTokens (filter (λ r, ¬ sameSession userId deviceId r))).

(** Modelled from the spec: [RefreshTokenRepository.saveToken] is not among
    the sources: the store supports "save(userId, deviceId, token)"; a save
    adds a record, which is why the flows delete first ("would otherwise ...
    produce stale duplicates"). *)
Definition refreshRepository_saveToken (userId : UserId) (deviceId : DeviceId)
    (token : Token) : Async unit :=
  record (RefreshSaveToken userId deviceId token);;
  modify (with_refreshTokens (λ rs, rs ++
    [{| RefreshTokenEntity.userId := userId;
        RefreshTokenEntity.deviceId := deviceId;
        RefreshTokenEntity.refreshToken := token |}])).

(** *** Access-token cache *)

(** Modelled from the spec: [AuthCacheService] is not among the sources: an
    "ephemeral store mapping (user, device) → current access token,
    supporting save/remove", with "remove(userId, deviceId) (idempotent)". *)
Definition authCacheService_saveToken (userId : UserId) (deviceId : DeviceId)
    (token : Token) : Async unit :=
  record (CacheSaveToken userId deviceId token);;
  modify (with_accessTokens (insert (userId, deviceId) token)).

(** Modelled from the spec: [AuthCacheService.removeToken], likewise absent:
    "remove(userId, deviceId) (idempotent)"; no error when the key is not
    there. *)
Definition authCacheService_removeToken (userId : UserId) (deviceId : DeviceId) : Async unit :=
  record (CacheRemoveToken userId deviceId);;
  modify (with_accessTokens (delete (userId, deviceId))).

(** *** Token issuer *)

(** Modelled from the spec: [TokenService.generateAuthTokens] is not among
    the sources: "generate(userId, deviceId) → {accessToken, refreshToken}",
    "a fresh, different token pair each time".  [mintPair] is the pair of the
    minting with a given serial number; the issuer numbers its mintings. *)
Definition mintPair (userId : UserId) (deviceId : DeviceId) (serial : nat) : TokenPair.t :=
  {| TokenPair.accessToken := {| tk_kind := AccessKind; tk_userId := userId;
                                 tk_deviceId := deviceId; tk_serial := serial |};
     TokenPair.refreshToken := {| tk_kind := RefreshKind; tk_userId := userId;
                                  tk_deviceId := deviceId; tk_serial := serial |} |}.

(** Modelled from the spec: [TokenService.generateAuthTokens], see
    [mintPair]: each call mints the pair of the next serial number. *)
Definition tokenService_generateAuthTokens (userId : UserId) (deviceId : DeviceId)
    : Async TokenPair.t :=
  serial ← gets issued;
  record (TokenGenerate userId deviceId);;
  modify (with_issued S);;
  mret (mintPair userId deviceId serial).

(** Modelled from the spec: [AuthMapper.toResponseDto(user, tokens)]. *)
Definition AuthMapper_toResponseDto (user : UserEntity.t) (tokens : TokenPair.t)
    : AuthUserResDto.t :=
  {| AuthUserResDto.user :=
       {| UserResDto.id := UserEntity.id user;
          UserResDto.email := UserEntity.email user;
          UserResDto.role := UserEntity.role user |};
     AuthUserResDto.tokens := tokens |}.

(** ** AuthService *)

Section AuthService.
Context `{Bcrypt}.

(** [bcrypt.hash(data, rounds)], awaited: a salt is drawn. *)
Definition bcrypt_hash_call (data : string) (rounds : nat) : Async string :=
  salt ← gets entropy;
  modify (with_entropy S);;
  mret (bcrypt_hash salt data rounds).

(** [bcrypt.compare(data, encrypted)]: the promise, not yet awaited. *)
Definition bcrypt_compare_call (data encrypted : string) : JsValue :=
  JsPromise (bcrypt_compare data encrypted).

Definition signUp (o : Completion) (dto : SignUpReqDto.t) : Async AuthUserResDto.t :=
  isEmailUniqOrThrow (SignUpReqDto.email dto);;
  password ← bcrypt_hash_call (SignUpReqDto.password dto) 10;
  user ← userRepository_save
            (userRepository_create (SignUpReqDto.email dto) password);
  tokens ← tokenService_generateAuthTokens
              (UserEntity.id user) (SignUpReqDto.deviceId dto);
  promiseAll o
    (authCacheService_saveToken
       (UserEntity.id user) (SignUpReqDto.deviceId dto) (TokenPair.accessToken tokens))
    (refreshRepository_saveToken
       (UserEntity.id user) (SignUpReqDto.deviceId dto) (TokenPair.refreshToken tokens));;
  mret (AuthMapper_toResponseDto user tokens).

Definition signUpAdmin (o : Completion) (dto : SignUpReqDto.t) : Async AuthUserResDto.t :=
  isEmailUniqOrThrow (SignUpReqDto.email dto);;
  password ← bcrypt_hash_call (SignUpReqDto.password dto) 10;
  let user := userRepository_create (SignUpReqDto.email dto) password in
  let user := {| UserDraft.email := UserDraft.email user;
                 UserDraft.password := UserDraft.password user;
                 UserDraft.role := Some ADMIN |} in
  user ← userRepository_save user;
  let isPasswordValid :=
    bcrypt_compare_call (SignUpReqDto.password dto) (UserEntity.password user) in
  if negb (ToBoolean isPasswordValid) then throw UnauthorizedException
  else
    tokens ← tokenService_generateAuthTokens
                (UserEntity.id user) (SignUpReqDto.deviceId dto);
    promiseAll o
      (refreshRepository_saveToken
         (UserEntity.id user) (SignUpReqDto.deviceId dto) (TokenPair.refreshToken tokens))
      (authCacheService_saveToken
         (UserEntity.id user) (SignUpReqDto.deviceId dto) (TokenPair.accessToken tokens));;
    mret (AuthMapper_toResponseDto user tokens).

Definition signIn (o1 o2 : Completion) (dto : SignInReqDto.t) : Async AuthUserResDto.t :=
  userEntity ← userRepository_findOne (SignInReqDto.email dto);
  match userEntity with
  | None => throw UnauthorizedException
  | Some userEntity =>
    let isPasswordsMatch :=
      await (bcrypt_compare_call (SignInReqDto.password dto)
                                 (UserCredentials.password userEntity)) in
    if negb (ToBoolean isPasswordsMatch) then throw UnauthorizedException
    else
      user ← userRepository_findOneBy (UserCredentials.id userEntity);
      user ← deref user;
      tokens ← tokenService_generateAuthTokens
                  (UserEntity.id user) (SignInReqDto.deviceId dto);
      promiseAll o1
        (refreshRepository_delete (UserEntity.id user) (SignInReqDto.deviceId dto))
        (authCacheService_removeToken (UserEntity.id user) (SignInReqDto.deviceId dto));;
      promiseAll o2
        (refreshRepository_saveToken
           (UserEntity.id user) (SignInReqDto.deviceId dto) (TokenPair.refreshToken tokens))
        (authCacheService_saveToken
           (UserEntity.id user) (SignInReqDto.deviceId dto) (TokenPair.accessToken tokens));;
      mret (AuthMapper_toResponseDto user tokens)
  end.

Definition logout (o : Completion) (userData : IUserData.t) : Async unit :=
  promiseAll o
    (refreshRepository_delete (IUserData.userId userData) (IUserData.deviceId userData))
    (authCacheService_removeToken (IUserData.userId userData) (IUserData.deviceId userData));;
  mret ().

Definition refreshToken (o1 o2 : Completion) (userData : IUserData.t) : Async TokenPair.t :=
  user ← userRepository_findOneBy (IUserData.userId userData);
  user ← deref user;
  promiseAll o1
    (refreshRepository_delete (UserEntity.id user) (IUserData.deviceId userData))
    (authCacheService_removeToken (UserEntity.id user) (IUserData.deviceId userData));;
  tokens ← tokenService_generateAuthTokens
              (UserEntity.id user) (IUserData.deviceId userData);
  promiseAll o2
    (refreshRepository_saveToken
       (UserEntity.id user) (IUserData.deviceId userData) (TokenPair.refreshToken tokens))
    (authCacheService_saveToken
       (UserEntity.id user) (IUserData.deviceId userData) (TokenPair.accessToken tokens));;
  mret tokens.

End AuthService.


(** ** Observations *)

(** The refresh-token records of a session. *)
Definition refreshRecords (userId : UserId) (deviceId : DeviceId) (w : World)
    : list RefreshTokenEntity.t :=
  filter (sameSession userId deviceId) (refreshTokens w).

(** The cache entries of a session: the cache is keyed by the session. *)
Definition cacheEntries (userId : UserId) (deviceId : DeviceId) (w : World) : list Token :=
  option_list (accessTokens w !! (userId, deviceId)).

Definition registered (email : string) (w : World) : Prop :=
  ∃ u, u ∈ users w ∧ UserEntity.email u = email.

Definition knownUser (userId : UserId) (w : World) : Prop :=
  ∃ u, u ∈ users w ∧ UserEntity.id u = userId.

(** Calls that read the user store. *)
Definition readsUsers (c : Call) : bool :=
  match c with
  | UserIsEmailUniq _ | UserFindOne _ | UserFindOneBy _ => true
  | _ => false
  end.

(** Calls that remove from, and calls that write to, a token store. *)
Definition isDeletion (c : Call) : bool :=
  match c with
  | RefreshDelete _ _ | CacheRemoveToken _ _ => true
  | _ => false
  end.

Definition isWrite (c : Call) : bool :=
  match c with
  | RefreshSaveToken _ _ _ | CacheSaveToken _ _ _ => true
  | _ => false
  end.

Definition sessionOf (c : Call) : option (UserId * DeviceId) :=
  match c with
  | RefreshDelete u d | CacheRemoveToken u d
  | RefreshSaveToken u d _ | CacheSaveToken u d _ => Some (u, d)
  | _ => None
  end.

(** Delete-then-write: when a write to a token store takes effect, both
    deletions for its session have taken effect, and no deletion follows. *)
Definition twoPhase (cs : list Call) : Prop :=
  ∀ i c u d, cs !! i = Some c → isWrite c = true → sessionOf c = Some (u, d) →
    RefreshDelete u d ∈ take i cs ∧ CacheRemoveToken u d ∈ take i cs ∧
    ∀ j c', i < j → cs !! j = Some c' → isDeletion c' = false.

(** The refresh-token record that [saveToken] adds for a session. *)
Definition sessionRow (userId : UserId) (deviceId : DeviceId) (tokens : TokenPair.t)
    : RefreshTokenEntity.t :=
  {| RefreshTokenEntity.userId := userId;
     RefreshTokenEntity.deviceId := deviceId;
     RefreshTokenEntity.refreshToken := TokenPair.refreshToken tokens |}.

(** The session has exactly one refresh-token record and exactly one cache
    entry, and they hold the given pair. *)
Definition oneSession (userId : UserId) (deviceId : DeviceId) (tokens : TokenPair.t)
    (w : World) : Prop :=
  refreshRecords userId deviceId w = [sessionRow userId deviceId tokens] ∧
  cacheEntries userId deviceId w = [TokenPair.accessToken tokens].

Definition noSession (userId : UserId) (deviceId : DeviceId) (w : World) : Prop :=
  refreshRecords userId deviceId w = [] ∧ cacheEntries userId deviceId w = [].

(** Both tokens of the pair differ from whatever the session has stored. *)
Definition rotated (userId : UserId) (deviceId : DeviceId) (tokens : TokenPair.t)
    (w : World) : Prop :=
  (∀ r, r ∈ refreshRecords userId deviceId w →
        TokenPair.refreshToken tokens ≠ RefreshTokenEntity.refreshToken r) ∧
  (∀ t, t ∈ cacheEntries userId deviceId w → TokenPair.accessToken tokens ≠ t).

(** The stores and the generators of primary keys and serials agree. *)
Definition sameData (w w' : World) : Prop :=
  users w' = users w ∧ nextUserId w' = nextUserId w ∧ issued w' = issued w ∧
  refreshTokens w' = refreshTokens w ∧ accessTokens w' = accessTokens w.

(** ** Worlds the service can be in *)

(** What the database and the issuer guarantee: primary keys, the owners of
    refresh-token records and the serials of stored tokens are all below the
    next value of their generator. *)
Record consistent (w : World) : Prop := {
  users_below : ∀ u, u ∈ users w → UserEntity.id u < nextUserId w;
  owners_below : ∀ r, r ∈ refreshTokens w → RefreshTokenEntity.userId r < nextUserId w;
  refresh_serials_below :
    ∀ r, r ∈ refreshTokens w → tk_serial (RefreshTokenEntity.refreshToken r) < issued w;
  access_serials_below :
    ∀ k t, accessTokens w !! k = Some t → tk_serial t < issued w;
}.

Inductive Request :=
  | SignUp (o : Completion) (dto : SignUpReqDto.t)
  | SignUpAdmin (o : Completion) (dto : SignUpReqDto.t)
  | SignIn (o1 o2 : Completion) (dto : SignInReqDto.t)
  | Logout (o : Completion) (userData : IUserData.t)
  | RefreshToken (o1 o2 : Completion) (userData : IUserData.t).

(** The world after a request, whether it succeeded or threw. *)
Definition serve `{Bcrypt} (r : Request) (w : World) : World :=
  match r with
  | SignUp o dto => (signUp o dto w).2
  | SignUpAdmin o dto => (signUpAdmin o dto w).2
  | SignIn o1 o2 dto => (signIn o1 o2 dto w).2
  | Logout o userData => (logout o userData w).2
  | RefreshToken o1 o2 userData => (refreshToken o1 o2 userData w).2
  end.

(** The worlds that whole requests, served one after another from the empty
    world, lead to.  A request is not interleaved with another at its
    [await]s, and every collaborator call completes. *)
Inductive reachable `{Bcrypt} : World → Prop :=
  | reachable_init : reachable initWorld
  | reachable_serve r w : reachable w → reachable (serve r w).

(** ** Two hashers to run the service with *)

(** A hasher that verifies what it hashed. *)
Definition soundBcrypt : Bcrypt := {|
  bcrypt_hash salt data rounds := String.append "$2b$" data;
  bcrypt_compare data encrypted := String.eqb (String.append "$2b$" data) encrypted;
|}.

(** A hasher whose verification fails on its own hashes: the library failure
    that the re-check of [signUpAdmin] is there to catch. *)
Definition faultyBcrypt : Bcrypt := {|
  bcrypt_hash salt data rounds := String.append "$2b$" data;
  bcrypt_compare data encrypted := false;
|}.

Definition alice : SignUpReqDto.t :=
  {| SignUpReqDto.email := "a@x.com"; SignUpReqDto.password := "p1";
     SignUpReqDto.deviceId := "d1" |}.

Definition aliceSignIn : SignInReqDto.t :=
  {| SignInReqDto.deviceId := "d1"; SignInReqDto.email := "a@x.com";
     SignInReqDto.password := "p1" |}.

Definition aliceWrongPassword : SignInReqDto.t :=
  {| SignInReqDto.deviceId := "d1"; SignInReqDto.email := "a@x.com";
     SignInReqDto.password := "p2" |}.

Definition bobSignIn : SignInReqDto.t :=
  {| SignInReqDto.deviceId := "d1"; SignInReqDto.email := "b@x.com";
     SignInReqDto.password := "p1" |}.

Definition aliceData : IUserData.t :=
  {| IUserData.userId := 0; IUserData.deviceId := "d1" |}.

Definition strangerData : IUserData.t :=
  {| IUserData.userId := 7; IUserData.deviceId := "d1" |}.

(** The world after Alice signed up on device d1. *)
Definition aliceWorld : World :=
  (@signUp soundBcrypt FirstThenSecond alice initWorld).2.

(** ** Targets of requests *)

(** The session whose tokens a request passes to the token stores: that of
    the primary key the database will generate next for the sign-ups, that
    of the user the email belongs to for [signIn], the caller's for
    [logout] and [refreshToken]. *)
Definition targetSession (r : Request) (w : World) : option (UserId * DeviceId) :=
  match r with
  | SignUp _ dto | SignUpAdmin _ dto =>
      Some (nextUserId w, SignUpReqDto.deviceId dto)
  | SignIn _ _ dto =>
      (λ u, (UserEntity.id u, SignInReqDto.deviceId dto)) <$>
        findByEmail (SignInReqDto.email dto) (users w)
  | Logout _ userData | RefreshToken _ _ userData =>
      Some (IUserData.userId userData, IUserData.deviceId userData)
  end.

(** Everything but the list of calls agrees. *)
Definition sameState (w w' : World) : Prop :=
  sameData w w' ∧ entropy w' = entropy w.

(** The sign-in request with the credentials of a sign-up request. *)
Definition signInOf (dto : SignUpReqDto.t) : SignInReqDto.t :=
  {| SignInReqDto.deviceId := SignUpReqDto.deviceId dto;
     SignInReqDto.email := SignUpReqDto.email dto;
     SignInReqDto.password := SignUpReqDto.password dto |}.

(** The user row that a sign-up saves. *)
Definition savedUser `{Bcrypt} (role : UserRoleEnum) (dto : SignUpReqDto.t) (w : World)
    : UserEntity.t :=
  {| UserEntity.id := nextUserId w;
     UserEntity.email := SignUpReqDto.email dto;
     UserEntity.password := bcrypt_hash (entropy w) (SignUpReqDto.password dto) 10;
     UserEntity.role := role |}.

Definition aliceOnD2 : SignInReqDto.t :=
  {| SignInReqDto.deviceId := "d2"; SignInReqDto.email := "a@x.com";
     SignInReqDto.password := "p1" |}.

Definition carol : SignUpReqDto.t :=
  {| SignUpReqDto.email := "c@x.com"; SignUpReqDto.password := "p3";
     SignUpReqDto.deviceId := "d1" |}.

(** The world after Alice signed up and logged out on d1. *)
Definition loggedOutWorld : World :=
  (logout FirstThenSecond aliceData aliceWorld).2.

(** Two runs with the same result, the same stores and generators, and the
    same calls up to their order. *)
Definition sameRun {A} (r r' : (Exception + A) * World) : Prop :=
  r.1 = r'.1 ∧ sameState r.2 r'.2 ∧ calls r.2 ≡ₚ calls r'.2.

(** Unfolds a method down to the primitive steps of the monad. *)
Ltac run_async :=
  unfold signUp, signUpAdmin, signIn, logout, refreshToken, promiseAll,
    isEmailUniqOrThrow, userRepository_findOne, userRepository_findOneBy,
    userRepository_save, userRepository_create, refreshRepository_delete,
    refreshRepository_saveToken, authCacheService_saveToken,
    authCacheService_removeToken, tokenService_generateAuthTokens,
    bcrypt_hash_call, bcrypt_compare_call, deref, record, modify, gets, throw,
    mbind, mret, Async_bind, Async_ret, with_users, with_refreshTokens,
    with_accessTokens, with_nextUserId, with_issued, with_entropy, with_calls;
  cbn.

(** Settles [twoPhase] on an explicit list of at most eight calls. *)
Ltac two_phase_list :=
  let i := fresh "i" in let c := fresh "c" in
  let j := fresh "j" in let c' := fresh "c'" in
  intros i c ? ? ? ? ?;
  do 8 (try (destruct i as [|i]; [simplify_eq/=|])); simplify_eq/=;
  (split; [set_solver|]; split; [set_solver|]);
  intros j c' ? ?;
  do 8 (try (destruct j as [|j]; [simplify_eq/=; try lia; done|])); simplify_eq/=.

(** Settles that two lists of calls with a common prefix are permutations
    of each other when they differ by swaps of neighbours. *)
Ltac perm_calls :=
  rewrite <- ?app_assoc; cbn; apply Permutation_app_head;
  repeat first [reflexivity | apply perm_skip | (etrans; [apply perm_swap|])].

Ltac same_run :=
  split; [reflexivity|]; split; [by repeat split|]; cbn; perm_calls.

(** ** Lookups in the user store *)

Lemma findByEmail_Some email us u :
  findByEmail email us = Some u → u ∈ us ∧ UserEntity.email u = email.
Proof.
  unfold findByEmail. intros Hf. apply find_some in Hf as [Hin Heq].
  split; [by apply list_elem_of_In | by apply String.eqb_eq].
Qed.

Lemma findByEmail_None email us :
  findByEmail email us = None ↔ ∀ u, u ∈ us → UserEntity.email u ≠ email.
Proof.
  unfold findByEmail. induction us as [|v us IH]; cbn.
  - split; [intros _ u Hu; by apply elem_of_nil in Hu | done].
  - destruct (String.eqb_spec (UserEntity.email v) email) as [Heq|Hne].
    + split; [done|]. intros Hall. exfalso. apply (Hall v); [left | done].
    + rewrite IH. split.
      * intros Hall u Hu. apply elem_of_cons in Hu as [->|Hu]; auto.
      * intros Hall u Hu. apply Hall. by right.
Qed.

Lemma findByEmail_registered email w :
  registered email w → is_Some (findByEmail email (users w)).
Proof.
  intros (u & Hu & Heq). destruct (findByEmail email (users w)) eqn:Hf; [eauto|].
  exfalso. eapply findByEmail_None in Hf; eauto.
Qed.

Lemma findById_Some id us u :
  findById id us = Some u → u ∈ us ∧ UserEntity.id u = id.
Proof.
  unfold findById. intros Hf. apply find_some in Hf as [Hin Heq].
  split; [by apply list_elem_of_In | by apply Nat.eqb_eq].
Qed.

Lemma findById_None id us :
  findById id us = None ↔ ∀ u, u ∈ us → UserEntity.id u ≠ id.
Proof.
  unfold findById. induction us as [|v us IH]; cbn.
  - split; [intros _ u Hu; by apply elem_of_nil in Hu | done].
  - destruct (Nat.eqb_spec (UserEntity.id v) id) as [Heq|Hne].
    + split; [done|]. intros Hall. exfalso. apply (Hall v); [left | done].
    + rewrite IH. split.
      * intros Hall u Hu. apply elem_of_cons in Hu as [->|Hu]; auto.
      * intros Hall u Hu. apply Hall. by right.
Qed.

Lemma findById_unknown id w :
  ¬ knownUser id w → findById id (users w) = None.
Proof.
  intros Hno. apply findById_None. intros u Hu Heq. apply Hno. by exists u.
Qed.

(** A user found by email is found again by the id just read. *)
Lemma findById_of_findByEmail email us u :
  findByEmail email us = Some u →
  ∃ u', findById (UserEntity.id u) us = Some u' ∧ UserEntity.id u' = UserEntity.id u.
Proof.
  intros Hf. apply findByEmail_Some in Hf as [Hin _].
  destruct (findById (UserEntity.id u) us) as [u'|] eqn:Hid.
  - exists u'. split; [done|]. by apply findById_Some in Hid as [_ ?].
  - exfalso. eapply findById_None in Hid; eauto.
Qed.

(** ** Failing flows *)

Section Failures.
Context `{Bcrypt}.

(** C5: [signUp] with an email that is already registered fails with
    [ConflictException] and writes nothing: the user store, the
    refresh-token store and the access-token cache are as before, and the
    only collaborator call made is the uniqueness check. *)
Theorem signUp_duplicate_email_conflict o dto w :
  registered (SignUpReqDto.email dto) w →
  ∃ w', signUp o dto w = (inl ConflictException, w') ∧
        users w' = users w ∧
        nextUserId w' = nextUserId w ∧
        refreshTokens w' = refreshTokens w ∧
        accessTokens w' = accessTokens w ∧
        calls w' = calls w ++ [UserIsEmailUniq (SignUpReqDto.email dto)].
Proof.
  intros Hreg. apply findByEmail_registered in Hreg as [u Hu].
  run_async. cbn. rewrite Hu. eexists. split; [reflexivity|]. by cbn.
Qed.

(** [signIn] with an email that no user has. *)
Lemma signIn_unknown_email o1 o2 dto w :
  ¬ registered (SignInReqDto.email dto) w →
  ∃ w', signIn o1 o2 dto w = (inl UnauthorizedException, w') ∧
        refreshTokens w' = refreshTokens w ∧ accessTokens w' = accessTokens w.
Proof.
  intros Hno.
  assert (findByEmail (SignInReqDto.email dto) (users w) = None) as Hf.
  { apply findByEmail_None. intros u Hu Heq. apply Hno. by exists u. }
  run_async. cbn. rewrite Hf. cbn. by eexists.
Qed.

(** [signIn] with the email of a user and a password that bcrypt rejects. *)
Lemma signIn_wrong_password o1 o2 dto w u :
  findByEmail (SignInReqDto.email dto) (users w) = Some u →
  bcrypt_compare (SignInReqDto.password dto) (UserEntity.password u) = false →
  ∃ w', signIn o1 o2 dto w = (inl UnauthorizedException, w') ∧
        users w' = users w ∧
        refreshTokens w' = refreshTokens w ∧ accessTokens w' = accessTokens w ∧
        calls w' = calls w ++ [UserFindOne (SignInReqDto.email dto)].
Proof.
  intros Hf Hcmp. run_async. cbn. rewrite Hf. cbn. rewrite Hcmp. cbn. by eexists.
Qed.

(** C3: a [signIn] with an email that no user has and a [signIn] with a
    user's email and a wrong password fail with the same exception,
    [UnauthorizedException]: the caller gets equal results. *)
Theorem signIn_failures_indistinguishable o1 o2 o1' o2' dto w dto' w' u :
  ¬ registered (SignInReqDto.email dto) w →
  findByEmail (SignInReqDto.email dto') (users w') = Some u →
  bcrypt_compare (SignInReqDto.password dto') (UserEntity.password u) = false →
  (signIn o1 o2 dto w).1 = inl UnauthorizedException ∧
  (signIn o1' o2' dto' w').1 = inl UnauthorizedException ∧
  (signIn o1 o2 dto w).1 = (signIn o1' o2' dto' w').1.
Proof.
  intros Hno Hf Hcmp.
  destruct (signIn_unknown_email o1 o2 dto w Hno) as (v & -> & _).
  destruct (signIn_wrong_password o1' o2' dto' w' u Hf Hcmp) as (v' & -> & _).
  done.
Qed.

(** C4: [signIn] with a user's email and a wrong password fails with
    [UnauthorizedException] and changes neither token store: the records
    and the cache entry of every session are what they were. *)
Theorem signIn_wrong_password_keeps_sessions o1 o2 dto w u :
  findByEmail (SignInReqDto.email dto) (users w) = Some u →
  bcrypt_compare (SignInReqDto.password dto) (UserEntity.password u) = false →
  ∃ w', signIn o1 o2 dto w = (inl UnauthorizedException, w') ∧
        refreshTokens w' = refreshTokens w ∧
        accessTokens w' = accessTokens w ∧
        ∀ userId deviceId,
          refreshRecords userId deviceId w' = refreshRecords userId deviceId w ∧
          cacheEntries userId deviceId w' = cacheEntries userId deviceId w.
Proof.
  intros Hf Hcmp.
  destruct (signIn_wrong_password o1 o2 dto w u Hf Hcmp) as (w' & Hrun & _ & Hr & Ha & _).
  exists w'. repeat split; try done.
  - unfold refreshRecords. by rewrite Hr.
  - unfold cacheEntries. by rewrite Ha.
Qed.

(** C9: [refreshToken] for a user id that no user has reads [.id] of [null]:
    it fails with a [TypeError], which is not a [NotFoundException], right
    after the lookup; neither token store is touched and no deletion, no
    minting and no write is attempted. *)
Theorem refreshToken_missing_user_type_error o1 o2 userData w :
  ¬ knownUser (IUserData.userId userData) w →
  ∃ w', refreshToken o1 o2 userData w = (inl TypeError, w') ∧
        (refreshToken o1 o2 userData w).1 ≠ inl NotFoundException ∧
        refreshTokens w' = refreshTokens w ∧
        accessTokens w' = accessTokens w ∧
        issued w' = issued w ∧
        calls w' = calls w ++ [UserFindOneBy (IUserData.userId userData)].
Proof.
  intros Hno. apply findById_unknown in Hno.
  run_async. cbn. rewrite Hno. cbn. eexists. by repeat split.
Qed.

End Failures.

(** ** Logout *)

Section Logout.
Context `{Bcrypt}.

(** The effect of [logout] on the world, for both completion orders. *)
Lemma logout_run o userData w :
  let userId := IUserData.userId userData in
  let deviceId := IUserData.deviceId userData in
  ∃ w', logout o userData w = (inr (), w') ∧
        users w' = users w ∧ nextUserId w' = nextUserId w ∧
        issued w' = issued w ∧ entropy w' = entropy w ∧
        refreshTokens w' = filter (λ r, ¬ sameSession userId deviceId r) (refreshTokens w) ∧
        accessTokens w' = delete (userId, deviceId) (accessTokens w) ∧
        calls w' = calls w ++
          match o with
          | FirstThenSecond => [RefreshDelete userId deviceId; CacheRemoveToken userId deviceId]
          | SecondThenFirst => [CacheRemoveToken userId deviceId; RefreshDelete userId deviceId]
          end.
Proof.
  destruct o; run_async; cbn; eexists; repeat split; by rewrite <- app_assoc.
Qed.

Lemma refreshRecords_after_delete userId deviceId (rs : list RefreshTokenEntity.t) :
  filter (sameSession userId deviceId)
         (filter (λ r, ¬ sameSession userId deviceId r) rs) = [].
Proof.
  induction rs as [|r rs IH]; [done|].
  rewrite (filter_cons (λ r, ¬ sameSession userId deviceId r)).
  destruct (decide (¬ sameSession userId deviceId r)) as [Hn|Hy]; [|done].
  rewrite filter_cons. by destruct (decide (sameSession userId deviceId r)).
Qed.

Lemma refreshRecords_other_delete userId deviceId userId' deviceId'
    (rs : list RefreshTokenEntity.t) :
  (userId', deviceId') ≠ (userId, deviceId) →
  filter (sameSession userId' deviceId')
         (filter (λ r, ¬ sameSession userId deviceId r) rs) =
  filter (sameSession userId' deviceId') rs.
Proof.
  intros Hne. induction rs as [|r rs IH]; [done|].
  rewrite (filter_cons (λ r, ¬ sameSession userId deviceId r)).
  destruct (decide (¬ sameSession userId deviceId r)) as [Hn|Hy].
  - rewrite !filter_cons. by rewrite IH.
  - rewrite IH, filter_cons.
    destruct (decide (sameSession userId' deviceId' r)) as [[??]|]; [|done].
    exfalso. apply Hy. intros [??]. apply Hne. congruence.
Qed.

(** C7: [logout] returns without an exception in every world, so also when
    the session has no refresh-token record and no cache entry; afterwards
    the session has none in either store, and a second [logout] leaves both
    stores as the first one left them. *)
Theorem logout_delete_if_present o o' userData w :
  let userId := IUserData.userId userData in
  let deviceId := IUserData.deviceId userData in
  ∃ w' w'', logout o userData w = (inr (), w') ∧
            refreshRecords userId deviceId w' = [] ∧
            cacheEntries userId deviceId w' = [] ∧
            logout o' userData w' = (inr (), w'') ∧
            refreshTokens w'' = refreshTokens w' ∧
            accessTokens w'' = accessTokens w'.
Proof.
  intros userId deviceId.
  destruct (logout_run o userData w) as (w' & Hrun & _ & _ & _ & _ & Hr & Ha & _).
  destruct (logout_run o' userData w') as (w'' & Hrun' & _ & _ & _ & _ & Hr' & Ha' & _).
  exists w', w''. repeat split; try done.
  - unfold refreshRecords. rewrite Hr. apply refreshRecords_after_delete.
  - unfold cacheEntries. rewrite Ha. by rewrite lookup_delete_eq.
  - rewrite Hr', Hr. rewrite list_filter_filter. apply list_filter_iff. tauto.
  - rewrite Ha', Ha. apply delete_delete_eq.
Qed.

(** C10: [logout] makes exactly two collaborator calls, the deletion of the
    session's refresh-token records and the removal of its cache entry, and
    they take effect: the refresh-token store loses exactly the records of
    the session, the cache loses exactly its key, and the session has no
    record and no entry afterwards.  It does not read the user store, so it
    returns whether or not the user exists; the user store and the other
    sessions are untouched. *)
Theorem logout_touches_only_its_session o userData w :
  let userId := IUserData.userId userData in
  let deviceId := IUserData.deviceId userData in
  ∃ w' cs, logout o userData w = (inr (), w') ∧
        calls w' = calls w ++ cs ∧
        cs ≡ₚ [RefreshDelete userId deviceId; CacheRemoveToken userId deviceId] ∧
        forallb (λ c, negb (readsUsers c)) cs = true ∧
        refreshTokens w' =
          filter (λ r, ¬ sameSession userId deviceId r) (refreshTokens w) ∧
        accessTokens w' = delete (userId, deviceId) (accessTokens w) ∧
        noSession userId deviceId w' ∧
        users w' = users w ∧
        nextUserId w' = nextUserId w ∧
        issued w' = issued w ∧
        ∀ userId' deviceId', (userId', deviceId') ≠ (userId, deviceId) →
          refreshRecords userId' deviceId' w' = refreshRecords userId' deviceId' w ∧
          cacheEntries userId' deviceId' w' = cacheEntries userId' deviceId' w.
Proof.
  intros userId deviceId.
  destruct (logout_run o userData w) as (w' & Hrun & Hu & Hn & Hi & _ & Hr & Ha & Hc).
  exists w'. eexists. split; [done|]. split; [exact Hc|].
  split; [destruct o; [done | apply Permutation_swap]|].
  split; [by destruct o|].
  split; [exact Hr|]. split; [exact Ha|].
  split.
  { split.
    - unfold refreshRecords. rewrite Hr. apply refreshRecords_after_delete.
    - unfold cacheEntries. by rewrite Ha, lookup_delete_eq. }
  repeat split; try done.
  - unfold refreshRecords. rewrite Hr. by apply refreshRecords_other_delete.
  - unfold cacheEntries. rewrite Ha. by rewrite lookup_delete_ne.
Qed.

End Logout.

(** ** The password re-check of the admin sign-up *)

Section AdminSignUp.
Context `{Bcrypt}.

(** A promise is truthy whatever it resolves to. *)
Lemma promise_truthy data encrypted :
  ToBoolean (bcrypt_compare_call data encrypted) = true.
Proof. reflexivity. Qed.

(** For a new email [signUpAdmin] succeeds whatever [bcrypt.compare]
    resolves to: the condition of the re-check tests the promise. *)
Lemma signUpAdmin_run o dto w :
  ¬ registered (SignUpReqDto.email dto) w →
  let userId := nextUserId w in
  let deviceId := SignUpReqDto.deviceId dto in
  let tokens := mintPair userId deviceId (issued w) in
  ∃ res w', signUpAdmin o dto w = (inr res, w') ∧
    UserResDto.id (AuthUserResDto.user res) = userId ∧
    UserResDto.role (AuthUserResDto.user res) = ADMIN ∧
    AuthUserResDto.tokens res = tokens ∧
    TokenGenerate userId deviceId ∈ calls w' ∧
    refreshTokens w' = refreshTokens w ++
      [{| RefreshTokenEntity.userId := userId;
          RefreshTokenEntity.deviceId := deviceId;
          RefreshTokenEntity.refreshToken := TokenPair.refreshToken tokens |}] ∧
    accessTokens w' = <[(userId, deviceId) := TokenPair.accessToken tokens]> (accessTokens w).
Proof.
  intros Hno userId deviceId tokens.
  assert (findByEmail (SignUpReqDto.email dto) (users w) = None) as Hf.
  { apply findByEmail_None. intros u Hu Heq. apply Hno. by exists u. }
  destruct o; run_async; rewrite Hf; cbn; do 2 eexists;
    (split; [reflexivity|]); cbn; repeat split;
    rewrite !elem_of_app, !list_elem_of_singleton; tauto.
Qed.

End AdminSignUp.

(** C1, on the code: Alice signs up as admin with a hasher whose
    verification fails.  The re-check does not fail the call: the admin row
    is saved, a token pair is minted and returned, and the refresh-token
    record and the cache entry are written. *)
Theorem signUpAdmin_failed_recheck_issues_session :
  @bcrypt_compare faultyBcrypt (SignUpReqDto.password alice)
     (@bcrypt_hash faultyBcrypt 0 (SignUpReqDto.password alice) 10) = false ∧
  ∃ res w',
    @signUpAdmin faultyBcrypt FirstThenSecond alice initWorld = (inr res, w') ∧
    AuthUserResDto.tokens res = mintPair 0 "d1" 0 ∧
    users w' = [{| UserEntity.id := 0; UserEntity.email := "a@x.com";
                   UserEntity.password := "$2b$p1"; UserEntity.role := ADMIN |}] ∧
    oneSession 0 "d1" (mintPair 0 "d1" 0) w' ∧
    calls w' = [UserIsEmailUniq "a@x.com"; UserSave 0; TokenGenerate 0 "d1";
                RefreshSaveToken 0 "d1" (TokenPair.refreshToken (mintPair 0 "d1" 0));
                CacheSaveToken 0 "d1" (TokenPair.accessToken (mintPair 0 "d1" 0))].
Proof.
  split; [reflexivity|]. do 2 eexists. split; [vm_compute; reflexivity|].
  repeat split.
Qed.

(** ** Order of the store operations *)

(** [twoPhase] rejects a write that comes before the deletions. *)
Lemma twoPhase_rejects_early_write userId deviceId token :
  ¬ twoPhase [RefreshSaveToken userId deviceId token;
              RefreshDelete userId deviceId; CacheRemoveToken userId deviceId].
Proof.
  intros Htwo.
  destruct (Htwo 0 _ userId deviceId eq_refl eq_refl eq_refl) as (Hin & _).
  cbn in Hin. by apply elem_of_nil in Hin.
Qed.

Section Ordering.
Context `{Bcrypt}.

(** C6: in every execution of [signIn] and of [refreshToken], whichever
    operation of each [Promise.all] completes first, the calls the method
    adds are delete-then-write: a save to either token store comes after
    both the deletion of the session's refresh-token records and the
    removal of its cache entry, and no deletion comes after a save. *)
Theorem deletions_complete_before_writes o1 o2 w :
  (∀ dto, ∃ cs, calls (signIn o1 o2 dto w).2 = calls w ++ cs ∧ twoPhase cs) ∧
  (∀ userData, ∃ cs, calls (refreshToken o1 o2 userData w).2 = calls w ++ cs ∧ twoPhase cs).
Proof.
  split.
  - intros dto. run_async.
    destruct (findByEmail (SignInReqDto.email dto) (users w)) as [u|]; cbn.
    2:{ eexists. split; [reflexivity|]. two_phase_list. }
    destruct (bcrypt_compare _ _); cbn.
    2:{ eexists. split; [reflexivity|]. two_phase_list. }
    destruct (findById (UserEntity.id u) (users w)) as [u'|]; cbn.
    2:{ eexists. split; [by rewrite <- app_assoc|]. two_phase_list. }
    destruct o1, o2; cbn; (eexists; split; [by rewrite <- !app_assoc|]);
      two_phase_list.
  - intros userData. run_async.
    destruct (findById (IUserData.userId userData) (users w)) as [u'|]; cbn.
    2:{ eexists. split; [reflexivity|]. two_phase_list. }
    destruct o1, o2; cbn; (eexists; split; [by rewrite <- !app_assoc|]);
      two_phase_list.
Qed.

End Ordering.

(** ** Successful flows *)

Section Flows.
Context `{Bcrypt}.

Lemma signUp_cases o dto w :
  let userId := nextUserId w in
  let deviceId := SignUpReqDto.deviceId dto in
  let tokens := mintPair userId deviceId (issued w) in
  (∃ w', signUp o dto w = (inl ConflictException, w') ∧ sameData w w') ∨
  (∃ res w', signUp o dto w = (inr res, w') ∧
     UserResDto.id (AuthUserResDto.user res) = userId ∧
     AuthUserResDto.tokens res = tokens ∧
     (∃ u, users w' = users w ++ [u] ∧ UserEntity.id u = userId) ∧
     nextUserId w' = S (nextUserId w) ∧
     issued w' = S (issued w) ∧
     refreshTokens w' = refreshTokens w ++ [sessionRow userId deviceId tokens] ∧
     accessTokens w' = <[(userId, deviceId) := TokenPair.accessToken tokens]> (accessTokens w)).
Proof.
  intros userId deviceId tokens. run_async.
  destruct (findByEmail (SignUpReqDto.email dto) (users w)) as [u|]; cbn.
  - left. eexists. by split.
  - right. destruct o; cbn; do 2 eexists; (split; [reflexivity|]); cbn;
      repeat split; by eexists.
Qed.

Lemma signUpAdmin_cases o dto w :
  let userId := nextUserId w in
  let deviceId := SignUpReqDto.deviceId dto in
  let tokens := mintPair userId deviceId (issued w) in
  (∃ w', signUpAdmin o dto w = (inl ConflictException, w') ∧ sameData w w') ∨
  (∃ res w', signUpAdmin o dto w = (inr res, w') ∧
     UserResDto.id (AuthUserResDto.user res) = userId ∧
     AuthUserResDto.tokens res = tokens ∧
     (∃ u, users w' = users w ++ [u] ∧ UserEntity.id u = userId) ∧
     nextUserId w' = S (nextUserId w) ∧
     issued w' = S (issued w) ∧
     refreshTokens w' = refreshTokens w ++ [sessionRow userId deviceId tokens] ∧
     accessTokens w' = <[(userId, deviceId) := TokenPair.accessToken tokens]> (accessTokens w)).
Proof.
  intros userId deviceId tokens. run_async.
  destruct (findByEmail (SignUpReqDto.email dto) (users w)) as [u|]; cbn.
  - left. eexists. by split.
  - right. destruct o; cbn; do 2 eexists; (split; [reflexivity|]); cbn;
      repeat split; by eexists.
Qed.

Lemma signIn_cases o1 o2 dto w :
  let deviceId := SignInReqDto.deviceId dto in
  (∃ w', signIn o1 o2 dto w = (inl UnauthorizedException, w') ∧ sameData w w') ∨
  (∃ res w', signIn o1 o2 dto w = (inr res, w') ∧
     let userId := UserResDto.id (AuthUserResDto.user res) in
     let tokens := mintPair userId deviceId (issued w) in
     (∃ u, findByEmail (SignInReqDto.email dto) (users w) = Some u ∧
           UserEntity.id u = userId) ∧
     knownUser userId w ∧
     AuthUserResDto.tokens res = tokens ∧
     users w' = users w ∧
     nextUserId w' = nextUserId w ∧
     issued w' = S (issued w) ∧
     refreshTokens w' =
       filter (λ r, ¬ sameSession userId deviceId r) (refreshTokens w) ++
       [sessionRow userId deviceId tokens] ∧
     accessTokens w' =
       <[(userId, deviceId) := TokenPair.accessToken tokens]>
         (delete (userId, deviceId) (accessTokens w))).
Proof.
  intros deviceId. run_async.
  destruct (findByEmail (SignInReqDto.email dto) (users w)) as [u|] eqn:Hf; cbn.
  2:{ left. eexists. by split. }
  destruct (bcrypt_compare _ _); cbn.
  2:{ left. eexists. by split. }
  destruct (findById_of_findByEmail _ _ _ Hf) as (u' & Hid & Heq).
  rewrite Hid. cbn. apply findById_Some in Hid as [Hin _].
  right. destruct o1, o2; cbn; do 2 eexists; (split; [reflexivity|]); cbn;
    (split; [by exists u|]); (split; [by exists u'|]); by repeat split.
Qed.

Lemma refreshToken_cases o1 o2 userData w :
  let userId := IUserData.userId userData in
  let deviceId := IUserData.deviceId userData in
  let tokens := mintPair userId deviceId (issued w) in
  (∃ w', refreshToken o1 o2 userData w = (inl TypeError, w') ∧ sameData w w') ∨
  (∃ w', refreshToken o1 o2 userData w = (inr tokens, w') ∧
     knownUser userId w ∧
     users w' = users w ∧
     nextUserId w' = nextUserId w ∧
     issued w' = S (issued w) ∧
     refreshTokens w' =
       filter (λ r, ¬ sameSession userId deviceId r) (refreshTokens w) ++
       [sessionRow userId deviceId tokens] ∧
     accessTokens w' =
       <[(userId, deviceId) := TokenPair.accessToken tokens]>
         (delete (userId, deviceId) (accessTokens w))).
Proof.
  intros userId deviceId tokens. run_async.
  destruct (findById (IUserData.userId userData) (users w)) as [u|] eqn:Hid; cbn.
  2:{ left. eexists. by split. }
  apply findById_Some in Hid as [Hin Heq].
  right. destruct o1, o2; cbn; eexists; rewrite Heq;
    (split; [reflexivity|]); cbn; (split; [by exists u|]); by repeat split.
Qed.


(** *** The worlds of the service are consistent *)

Lemma consistent_init : consistent initWorld.
Proof.
  split; cbn; intros *; try (intros Hin; by apply elem_of_nil in Hin).
  by rewrite lookup_empty.
Qed.

Lemma consistent_sameData w w' : sameData w w' → consistent w → consistent w'.
Proof.
  intros (Hu & Hn & Hi & Hr & Ha) [H1 H2 H3 H4].
  split; rewrite ?Hu, ?Hn, ?Hi, ?Hr, ?Ha; done.
Qed.

(** A flow that only adds: [signUp] and [signUpAdmin]. *)
Lemma consistent_added w w' u deviceId :
  let userId := nextUserId w in
  let tokens := mintPair userId deviceId (issued w) in
  consistent w →
  users w' = users w ++ [u] → UserEntity.id u = userId →
  nextUserId w' = S (nextUserId w) →
  issued w' = S (issued w) →
  refreshTokens w' = refreshTokens w ++ [sessionRow userId deviceId tokens] →
  accessTokens w' = <[(userId, deviceId) := TokenPair.accessToken tokens]> (accessTokens w) →
  consistent w'.
Proof.
  intros userId tokens [H1 H2 H3 H4] Hu Hid Hn Hi Hr Ha.
  split; rewrite ?Hu, ?Hn, ?Hi, ?Hr, ?Ha.
  - intros v [Hv| ->%list_elem_of_singleton]%elem_of_app.
    + apply H1 in Hv. lia.
    + rewrite Hid. unfold userId. lia.
  - intros r [Hr'| ->%list_elem_of_singleton]%elem_of_app.
    + apply H2 in Hr'. lia.
    + cbn. unfold userId. lia.
  - intros r [Hr'| ->%list_elem_of_singleton]%elem_of_app.
    + apply H3 in Hr'. lia.
    + cbn. lia.
  - intros k t. rewrite lookup_insert. case_decide.
    + intros [= <-]. cbn. lia.
    + intros Hk. apply H4 in Hk. lia.
Qed.

(** A flow that deletes and then adds: [signIn] and [refreshToken]. *)
Lemma consistent_replaced w w' userId deviceId :
  let tokens := mintPair userId deviceId (issued w) in
  consistent w →
  knownUser userId w →
  users w' = users w →
  nextUserId w' = nextUserId w →
  issued w' = S (issued w) →
  refreshTokens w' =
    filter (λ r, ¬ sameSession userId deviceId r) (refreshTokens w) ++
    [sessionRow userId deviceId tokens] →
  accessTokens w' =
    <[(userId, deviceId) := TokenPair.accessToken tokens]>
      (delete (userId, deviceId) (accessTokens w)) →
  consistent w'.
Proof.
  intros tokens [H1 H2 H3 H4] (u & Hin & Hid) Hu Hn Hi Hr Ha.
  split; rewrite ?Hu, ?Hn, ?Hi, ?Hr, ?Ha.
  - done.
  - intros r [[_ Hr']%list_elem_of_filter| ->%list_elem_of_singleton]%elem_of_app.
    + by apply H2.
    + cbn. rewrite <- Hid. by apply H1.
  - intros r [[_ Hr']%list_elem_of_filter| ->%list_elem_of_singleton]%elem_of_app.
    + apply H3 in Hr'. lia.
    + cbn. lia.
  - intros k t. rewrite lookup_insert. case_decide.
    + intros [= <-]. cbn. lia.
    + rewrite lookup_delete. case_decide; [done|].
      intros Hk. apply H4 in Hk. lia.
Qed.

Lemma consistent_removed w w' userId deviceId :
  consistent w →
  users w' = users w →
  nextUserId w' = nextUserId w →
  issued w' = issued w →
  refreshTokens w' = filter (λ r, ¬ sameSession userId deviceId r) (refreshTokens w) →
  accessTokens w' = delete (userId, deviceId) (accessTokens w) →
  consistent w'.
Proof.
  intros [H1 H2 H3 H4] Hu Hn Hi Hr Ha.
  split; rewrite ?Hu, ?Hn, ?Hi, ?Hr, ?Ha.
  - done.
  - intros r [_ Hr']%list_elem_of_filter. by apply H2.
  - intros r [_ Hr']%list_elem_of_filter. by apply H3.
  - intros k t. rewrite lookup_delete. case_decide; [done|]. apply H4.
Qed.

Lemma serve_consistent r w : consistent w → consistent (serve r w).
Proof.
  intros Hw. destruct r as [o dto|o dto|o1 o2 dto|o userData|o1 o2 userData]; cbn.
  - destruct (signUp_cases o dto w)
      as [(w' & -> & Hsame)|(res & w' & -> & _ & _ & (u & Hu & Hid) & Hn & Hi & Hr & Ha)].
    + by eapply consistent_sameData.
    + by eapply consistent_added.
  - destruct (signUpAdmin_cases o dto w)
      as [(w' & -> & Hsame)|(res & w' & -> & _ & _ & (u & Hu & Hid) & Hn & Hi & Hr & Ha)].
    + by eapply consistent_sameData.
    + by eapply consistent_added.
  - destruct (signIn_cases o1 o2 dto w)
      as [(w' & -> & Hsame)|(res & w' & -> & _ & Hk & _ & Hu & Hn & Hi & Hr & Ha)].
    + by eapply consistent_sameData.
    + by eapply consistent_replaced.
  - destruct (logout_run o userData w) as (w' & -> & Hu & Hn & Hi & _ & Hr & Ha & _).
    by eapply consistent_removed.
  - destruct (refreshToken_cases o1 o2 userData w)
      as [(w' & -> & Hsame)|(w' & -> & Hk & Hu & Hn & Hi & Hr & Ha)].
    + by eapply consistent_sameData.
    + by eapply consistent_replaced.
Qed.

Lemma reachable_consistent w : reachable w → consistent w.
Proof.
  induction 1 as [|r w _ IH]; [apply consistent_init | by apply serve_consistent].
Qed.


(** *** The session after a flow *)

Lemma refreshRecords_added userId deviceId tokens (rs : list RefreshTokenEntity.t) :
  (∀ r, r ∈ rs → ¬ sameSession userId deviceId r) →
  filter (sameSession userId deviceId) (rs ++ [sessionRow userId deviceId tokens]) =
  [sessionRow userId deviceId tokens].
Proof.
  intros Hnone. rewrite filter_app.
  assert (filter (sameSession userId deviceId) rs = []) as ->.
  { induction rs as [|r rs IH]; [done|]. rewrite filter_cons.
    destruct (decide (sameSession userId deviceId r)) as [Hs|_].
    - exfalso. apply (Hnone r); [left | done].
    - apply IH. intros r' Hr'. apply Hnone. by right. }
  rewrite app_nil_l, filter_cons.
  destruct (decide (sameSession userId deviceId (sessionRow userId deviceId tokens)))
    as [_|Hn]; [done|].
  exfalso. by apply Hn.
Qed.

Lemma oneSession_replaced userId deviceId tokens w w' :
  refreshTokens w' =
    filter (λ r, ¬ sameSession userId deviceId r) (refreshTokens w) ++
    [sessionRow userId deviceId tokens] →
  accessTokens w' =
    <[(userId, deviceId) := TokenPair.accessToken tokens]>
      (delete (userId, deviceId) (accessTokens w)) →
  oneSession userId deviceId tokens w'.
Proof.
  intros Hr Ha. split.
  - unfold refreshRecords. rewrite Hr. apply refreshRecords_added.
    by intros r [Hn _]%list_elem_of_filter.
  - unfold cacheEntries. by rewrite Ha, lookup_insert_eq.
Qed.

Lemma oneSession_added deviceId tokens w w' :
  consistent w →
  refreshTokens w' = refreshTokens w ++ [sessionRow (nextUserId w) deviceId tokens] →
  accessTokens w' =
    <[(nextUserId w, deviceId) := TokenPair.accessToken tokens]> (accessTokens w) →
  oneSession (nextUserId w) deviceId tokens w'.
Proof.
  intros Hw Hr Ha. split.
  - unfold refreshRecords. rewrite Hr. apply refreshRecords_added.
    intros r Hin [Hu _]. apply (owners_below w Hw) in Hin. lia.
  - unfold cacheEntries. by rewrite Ha, lookup_insert_eq.
Qed.

(** A newly minted pair differs from every stored token. *)
Lemma rotated_minted userId deviceId w :
  consistent w → rotated userId deviceId (mintPair userId deviceId (issued w)) w.
Proof.
  intros Hw. split.
  - intros r [_ Hin]%list_elem_of_filter Heq.
    apply (refresh_serials_below w Hw) in Hin. rewrite <- Heq in Hin. cbn in Hin. lia.
  - unfold cacheEntries. intros t Hin Heq.
    destruct (accessTokens w !! (userId, deviceId)) as [t'|] eqn:Hk; cbn in Hin.
    + apply list_elem_of_singleton in Hin as ->.
      apply (access_serials_below w Hw) in Hk. rewrite <- Heq in Hk. cbn in Hk. lia.
    + by apply elem_of_nil in Hin.
Qed.

(** C2: from a consistent world, a successful [signUp], [signIn] or
    [refreshToken] leaves the session with exactly one refresh-token record
    and exactly one cache entry, holding the pair just issued; after
    [logout] the session has neither; and a second successful [signIn]
    for the same session leaves one of each again, holding the second pair,
    both of whose tokens differ from those of the first. *)
Theorem session_invariant w :
  consistent w →
  (∀ o dto res w', signUp o dto w = (inr res, w') →
     oneSession (UserResDto.id (AuthUserResDto.user res)) (SignUpReqDto.deviceId dto)
       (AuthUserResDto.tokens res) w') ∧
  (∀ o1 o2 dto res w', signIn o1 o2 dto w = (inr res, w') →
     oneSession (UserResDto.id (AuthUserResDto.user res)) (SignInReqDto.deviceId dto)
       (AuthUserResDto.tokens res) w' ∧
     rotated (UserResDto.id (AuthUserResDto.user res)) (SignInReqDto.deviceId dto)
       (AuthUserResDto.tokens res) w) ∧
  (∀ o1 o2 userData tokens w', refreshToken o1 o2 userData w = (inr tokens, w') →
     oneSession (IUserData.userId userData) (IUserData.deviceId userData) tokens w') ∧
  (∀ o userData, ∃ w', logout o userData w = (inr (), w') ∧
     noSession (IUserData.userId userData) (IUserData.deviceId userData) w') ∧
  (∀ o1 o2 o1' o2' dto res1 w1 res2 w2,
     signIn o1 o2 dto w = (inr res1, w1) →
     signIn o1' o2' dto w1 = (inr res2, w2) →
     UserResDto.id (AuthUserResDto.user res2) = UserResDto.id (AuthUserResDto.user res1) ∧
     oneSession (UserResDto.id (AuthUserResDto.user res1)) (SignInReqDto.deviceId dto)
       (AuthUserResDto.tokens res2) w2 ∧
     TokenPair.accessToken (AuthUserResDto.tokens res2) ≠
       TokenPair.accessToken (AuthUserResDto.tokens res1) ∧
     TokenPair.refreshToken (AuthUserResDto.tokens res2) ≠
       TokenPair.refreshToken (AuthUserResDto.tokens res1)).
Proof.
  intros Hw. split; [|split; [|split; [|split]]].
  - intros o dto res w' Hrun'.
    destruct (signUp_cases o dto w)
      as [(v & Hrun & _)|(res' & v & Hrun & Hid & Htok & _ & _ & _ & Hr & Ha)];
      rewrite Hrun in Hrun'; simplify_eq.
    rewrite Hid, Htok. by apply oneSession_added.
  - intros o1 o2 dto res w' Hrun'.
    destruct (signIn_cases o1 o2 dto w)
      as [(v & Hrun & _)|(res' & v & Hrun & _ & _ & Htok & _ & _ & _ & Hr & Ha)];
      rewrite Hrun in Hrun'; simplify_eq.
    rewrite Htok. split; [by eapply oneSession_replaced | by apply rotated_minted].
  - intros o1 o2 userData tokens w' Hrun'.
    destruct (refreshToken_cases o1 o2 userData w)
      as [(v & Hrun & _)|(v & Hrun & _ & _ & _ & _ & Hr & Ha)];
      rewrite Hrun in Hrun'; simplify_eq.
    by eapply oneSession_replaced.
  - intros o userData.
    destruct (logout_run o userData w) as (w' & Hrun & _ & _ & _ & _ & Hr & Ha & _).
    exists w'. split; [done|]. split.
    + unfold refreshRecords. rewrite Hr. apply refreshRecords_after_delete.
    + unfold cacheEntries. by rewrite Ha, lookup_delete_eq.
  - intros o1 o2 o1' o2' dto res1 w1 res2 w2 Hrun1 Hrun2.
    destruct (signIn_cases o1 o2 dto w)
      as [(v & Hrun & _)|(res' & v & Hrun & (u & Hf & Hid) & Hk & Htok & Hu & Hn & Hi & Hr & Ha)];
      rewrite Hrun in Hrun1; simplify_eq.
    assert (consistent w1) as Hw1 by by eapply consistent_replaced.
    destruct (signIn_cases o1' o2' dto w1)
      as [(v & Hrun' & _)|(res' & v & Hrun' & (u' & Hf' & Hid') & _ & Htok' & _ & _ & _ & Hr' & Ha')];
      rewrite Hrun' in Hrun2; simplify_eq.
    rewrite Hu, Hf in Hf'. injection Hf' as <-.
    assert (UserResDto.id (AuthUserResDto.user res2) =
            UserResDto.id (AuthUserResDto.user res1)) as Heq by congruence.
    split; [done|]. rewrite <- Heq.
    split; [rewrite Htok'; by eapply oneSession_replaced|].
    rewrite Htok, Htok', Hi, Heq. cbn. split; intros [=]; lia.
Qed.

(** C8: a successful [refreshToken] from a consistent world returns the
    pair that was just minted for the session, and only that; both of its
    tokens differ from the tokens the session had stored before the call,
    and they are what the session holds afterwards. *)
Theorem refreshToken_rotates_both_tokens o1 o2 userData w tokens w' :
  consistent w →
  refreshToken o1 o2 userData w = (inr tokens, w') →
  tokens = mintPair (IUserData.userId userData) (IUserData.deviceId userData) (issued w) ∧
  rotated (IUserData.userId userData) (IUserData.deviceId userData) tokens w ∧
  oneSession (IUserData.userId userData) (IUserData.deviceId userData) tokens w'.
Proof.
  intros Hw Hrun'.
  destruct (refreshToken_cases o1 o2 userData w)
    as [(v & Hrun & _)|(v & Hrun & _ & _ & _ & _ & Hr & Ha)];
    rewrite Hrun in Hrun'; simplify_eq.
  split; [done|]. split; [by apply rotated_minted | by eapply oneSession_replaced].
Qed.

End Flows.

(** ** The flows on a concrete world *)

Lemma aliceWorld_consistent : consistent aliceWorld.
Proof.
  apply (@reachable_consistent soundBcrypt).
  exact (@reachable_serve soundBcrypt (SignUp FirstThenSecond alice) initWorld
           (@reachable_init soundBcrypt)).
Qed.

Lemma alice_registered : registered "a@x.com" aliceWorld.
Proof. eexists. split; [left | reflexivity]. Qed.

Lemma bob_not_registered : ¬ registered "b@x.com" aliceWorld.
Proof.
  intros (u & Hu & Heq). apply list_elem_of_singleton in Hu as ->. discriminate Heq.
Qed.

Lemma stranger_unknown : ¬ knownUser 7 aliceWorld.
Proof.
  intros (u & Hu & Heq). apply list_elem_of_singleton in Hu as ->. discriminate Heq.
Qed.

Lemma signUp_duplicate_email_conflict_witness :
  registered (SignUpReqDto.email alice) aliceWorld ∧
  ∃ w', @signUp soundBcrypt SecondThenFirst alice aliceWorld = (inl ConflictException, w') ∧
        users w' = users aliceWorld ∧
        nextUserId w' = nextUserId aliceWorld ∧
        refreshTokens w' = refreshTokens aliceWorld ∧
        accessTokens w' = accessTokens aliceWorld ∧
        calls w' = calls aliceWorld ++ [UserIsEmailUniq (SignUpReqDto.email alice)].
Proof.
  split; [exact alice_registered|].
  exact (@signUp_duplicate_email_conflict soundBcrypt SecondThenFirst alice aliceWorld
           alice_registered).
Defined.

Lemma signIn_failures_indistinguishable_witness :
  ¬ registered (SignInReqDto.email bobSignIn) aliceWorld ∧
  (∃ u, findByEmail (SignInReqDto.email aliceWrongPassword) (users aliceWorld) = Some u ∧
        @bcrypt_compare soundBcrypt (SignInReqDto.password aliceWrongPassword)
          (UserEntity.password u) = false) ∧
  (@signIn soundBcrypt FirstThenSecond FirstThenSecond bobSignIn aliceWorld).1 =
    inl UnauthorizedException ∧
  (@signIn soundBcrypt FirstThenSecond FirstThenSecond aliceWrongPassword aliceWorld).1 =
    inl UnauthorizedException ∧
  (@signIn soundBcrypt FirstThenSecond FirstThenSecond bobSignIn aliceWorld).1 =
  (@signIn soundBcrypt FirstThenSecond FirstThenSecond aliceWrongPassword aliceWorld).1.
Proof.
  split; [exact bob_not_registered|].
  split; [eexists; split; reflexivity|].
  exact (@signIn_failures_indistinguishable soundBcrypt
           FirstThenSecond FirstThenSecond FirstThenSecond FirstThenSecond
           bobSignIn aliceWorld aliceWrongPassword aliceWorld _
           bob_not_registered eq_refl eq_refl).
Defined.

Lemma signIn_wrong_password_keeps_sessions_witness :
  (∃ u, findByEmail (SignInReqDto.email aliceWrongPassword) (users aliceWorld) = Some u ∧
        @bcrypt_compare soundBcrypt (SignInReqDto.password aliceWrongPassword)
          (UserEntity.password u) = false) ∧
  ∃ w', @signIn soundBcrypt FirstThenSecond SecondThenFirst aliceWrongPassword aliceWorld =
          (inl UnauthorizedException, w') ∧
        refreshTokens w' = refreshTokens aliceWorld ∧
        accessTokens w' = accessTokens aliceWorld ∧
        ∀ userId deviceId,
          refreshRecords userId deviceId w' = refreshRecords userId deviceId aliceWorld ∧
          cacheEntries userId deviceId w' = cacheEntries userId deviceId aliceWorld.
Proof.
  split; [eexists; split; reflexivity|].
  exact (@signIn_wrong_password_keeps_sessions soundBcrypt
           FirstThenSecond SecondThenFirst aliceWrongPassword aliceWorld _ eq_refl eq_refl).
Defined.

Lemma refreshToken_missing_user_type_error_witness :
  ¬ knownUser (IUserData.userId strangerData) aliceWorld ∧
  ∃ w', refreshToken FirstThenSecond FirstThenSecond strangerData aliceWorld =
          (inl TypeError, w') ∧
        (refreshToken FirstThenSecond FirstThenSecond strangerData aliceWorld).1
          ≠ inl NotFoundException ∧
        refreshTokens w' = refreshTokens aliceWorld ∧
        accessTokens w' = accessTokens aliceWorld ∧
        issued w' = issued aliceWorld ∧
        calls w' = calls aliceWorld ++ [UserFindOneBy (IUserData.userId strangerData)].
Proof.
  split; [exact stranger_unknown|].
  exact (refreshToken_missing_user_type_error
           FirstThenSecond FirstThenSecond strangerData aliceWorld stranger_unknown).
Defined.

(** Alice signs in on d1 after her sign-up: one record and one entry,
    holding the second pair. *)
Lemma session_invariant_witness :
  consistent aliceWorld ∧
  oneSession 0 "d1" (mintPair 0 "d1" 1)
    (@signIn soundBcrypt FirstThenSecond FirstThenSecond aliceSignIn aliceWorld).2 ∧
  rotated 0 "d1" (mintPair 0 "d1" 1) aliceWorld.
Proof.
  split; [exact aliceWorld_consistent|].
  exact (proj1 (proj2 (@session_invariant soundBcrypt aliceWorld aliceWorld_consistent))
           FirstThenSecond FirstThenSecond aliceSignIn _ _ eq_refl).
Defined.

Lemma refreshToken_rotates_both_tokens_witness :
  consistent aliceWorld ∧
  (refreshToken FirstThenSecond SecondThenFirst aliceData aliceWorld).1 =
    inr (mintPair 0 "d1" 1) ∧
  rotated 0 "d1" (mintPair 0 "d1" 1) aliceWorld ∧
  oneSession 0 "d1" (mintPair 0 "d1" 1)
    (refreshToken FirstThenSecond SecondThenFirst aliceData aliceWorld).2.
Proof.
  split; [exact aliceWorld_consistent|]. split; [reflexivity|].
  exact (proj2 (refreshToken_rotates_both_tokens
                  FirstThenSecond SecondThenFirst aliceData aliceWorld _ _
                  aliceWorld_consistent eq_refl)).
Defined.

(** The scenario of the spec: sign-up on d1 gives T1, sign-in on d1 gives
    T2, different from T1, and the store has exactly one refresh-token
    record for the session, holding T2's refresh token. *)
Example signUp_then_signIn_scenario :
  let r1 := @signUp soundBcrypt FirstThenSecond alice initWorld in
  let r2 := @signIn soundBcrypt FirstThenSecond FirstThenSecond aliceSignIn r1.2 in
  sum_map id AuthUserResDto.tokens r1.1 = inr (mintPair 0 "d1" 0) ∧
  sum_map id AuthUserResDto.tokens r2.1 = inr (mintPair 0 "d1" 1) ∧
  mintPair 0 "d1" 1 ≠ mintPair 0 "d1" 0 ∧
  refreshRecords 0 "d1" r2.2 = [sessionRow 0 "d1" (mintPair 0 "d1" 1)] ∧
  cacheEntries 0 "d1" r2.2 = [TokenPair.accessToken (mintPair 0 "d1" 1)].
Proof. by repeat split. Qed.

(** [logout] of a session that never existed, and [logout] after a
    sign-up, twice. *)
Example logout_scenarios :
  (logout FirstThenSecond aliceData initWorld).1 = inr () ∧
  let w1 := (logout SecondThenFirst aliceData aliceWorld).2 in
  let w2 := (logout FirstThenSecond aliceData w1).2 in
  refreshTokens w1 = [] ∧ accessTokens w1 !! (0, "d1") = None ∧
  refreshTokens w2 = [] ∧ accessTokens w2 !! (0, "d1") = None.
Proof. by repeat split. Qed.

(** [refreshToken] for a user id that nobody has: a [TypeError], and the
    stores are those of [aliceWorld]. *)
Example refreshToken_stranger :
  let r := refreshToken FirstThenSecond FirstThenSecond strangerData aliceWorld in
  r.1 = inl TypeError ∧
  refreshTokens r.2 = refreshTokens aliceWorld ∧
  accessTokens r.2 = accessTokens aliceWorld.
Proof. by repeat split. Qed.

(** ** Sign-up: the account and its lookups *)

Lemma registered_dec email w : registered email w ∨ ¬ registered email w.
Proof.
  destruct (findByEmail email (users w)) as [u|] eqn:Hf.
  - left. exists u. by apply findByEmail_Some.
  - right. intros (u & Hu & Heq). eapply findByEmail_None in Hf; eauto.
Qed.

Lemma findByEmail_app_new email us u :
  (∀ v, v ∈ us → UserEntity.email v ≠ email) → UserEntity.email u = email →
  findByEmail email (us ++ [u]) = Some u.
Proof.
  intros Hnone Heq. unfold findByEmail. induction us as [|v us IH]; cbn.
  - apply String.eqb_eq in Heq. by rewrite Heq.
  - destruct (String.eqb_spec (UserEntity.email v) email) as [Hv|_].
    + exfalso. apply (Hnone v); [left | done].
    + apply IH. intros v' Hv'. apply Hnone. by right.
Qed.

Lemma findById_app_new id us u :
  (∀ v, v ∈ us → UserEntity.id v ≠ id) → UserEntity.id u = id →
  findById id (us ++ [u]) = Some u.
Proof.
  intros Hnone Heq. unfold findById. induction us as [|v us IH]; cbn.
  - apply Nat.eqb_eq in Heq. by rewrite Heq.
  - destruct (Nat.eqb_spec (UserEntity.id v) id) as [Hv|_].
    + exfalso. apply (Hnone v); [left | done].
    + apply IH. intros v' Hv'. apply Hnone. by right.
Qed.

Section SignUps.
Context `{Bcrypt}.

(** The run of [signUp] for an email that no user has. *)
Lemma signUp_run o dto w :
  ¬ registered (SignUpReqDto.email dto) w →
  let user := savedUser USER dto w in
  let userId := nextUserId w in
  let deviceId := SignUpReqDto.deviceId dto in
  let tokens := mintPair userId deviceId (issued w) in
  ∃ w', signUp o dto w = (inr (AuthMapper_toResponseDto user tokens), w') ∧
    users w' = users w ++ [user] ∧
    nextUserId w' = S (nextUserId w) ∧
    issued w' = S (issued w) ∧
    entropy w' = S (entropy w) ∧
    refreshTokens w' = refreshTokens w ++ [sessionRow userId deviceId tokens] ∧
    accessTokens w' = <[(userId, deviceId) := TokenPair.accessToken tokens]> (accessTokens w) ∧
    calls w' ≡ₚ calls w ++
      [UserIsEmailUniq (SignUpReqDto.email dto); UserSave userId;
       TokenGenerate userId deviceId;
       CacheSaveToken userId deviceId (TokenPair.accessToken tokens);
       RefreshSaveToken userId deviceId (TokenPair.refreshToken tokens)].
Proof.
  intros Hno user userId deviceId tokens.
  assert (findByEmail (SignUpReqDto.email dto) (users w) = None) as Hf.
  { apply findByEmail_None. intros u Hu Heq. apply Hno. by exists u. }
  run_async. rewrite Hf. cbn.
  destruct o; cbn; eexists; (split; [reflexivity|]);
    (do 6 (split; [done|])); perm_calls.
Qed.

(** The run of [signUpAdmin] for an email that no user has. *)
Lemma signUpAdmin_run_full o dto w :
  ¬ registered (SignUpReqDto.email dto) w →
  let user := savedUser ADMIN dto w in
  let userId := nextUserId w in
  let deviceId := SignUpReqDto.deviceId dto in
  let tokens := mintPair userId deviceId (issued w) in
  ∃ w', signUpAdmin o dto w = (inr (AuthMapper_toResponseDto user tokens), w') ∧
    users w' = users w ++ [user] ∧
    nextUserId w' = S (nextUserId w) ∧
    issued w' = S (issued w) ∧
    entropy w' = S (entropy w) ∧
    refreshTokens w' = refreshTokens w ++ [sessionRow userId deviceId tokens] ∧
    accessTokens w' = <[(userId, deviceId) := TokenPair.accessToken tokens]> (accessTokens w) ∧
    calls w' ≡ₚ calls w ++
      [UserIsEmailUniq (SignUpReqDto.email dto); UserSave userId;
       TokenGenerate userId deviceId;
       CacheSaveToken userId deviceId (TokenPair.accessToken tokens);
       RefreshSaveToken userId deviceId (TokenPair.refreshToken tokens)].
Proof.
  intros Hno user userId deviceId tokens.
  assert (findByEmail (SignUpReqDto.email dto) (users w) = None) as Hf.
  { apply findByEmail_None. intros u Hu Heq. apply Hno. by exists u. }
  run_async. rewrite Hf. cbn.
  destruct o; cbn; eexists; (split; [reflexivity|]);
    (do 6 (split; [done|])); perm_calls.
Qed.

(** The run of either sign-up for an email that a user has. *)
Lemma signUps_conflict o dto w :
  registered (SignUpReqDto.email dto) w →
  ∃ w' w'', signUp o dto w = (inl ConflictException, w') ∧
            signUpAdmin o dto w = (inl ConflictException, w'') ∧
            sameState w w' ∧ sameState w w'' ∧
            calls w' = calls w ++ [UserIsEmailUniq (SignUpReqDto.email dto)] ∧
            calls w'' = calls w ++ [UserIsEmailUniq (SignUpReqDto.email dto)].
Proof.
  intros Hreg. apply findByEmail_registered in Hreg as [u Hu].
  run_async. rewrite Hu. cbn. do 2 eexists. by repeat split.
Qed.

(** X1: [signUp] with an email that no user has succeeds.  It adds one user
    row after the existing ones, with the email of the request, the bcrypt
    hash of its password at cost 10 and the default role, and returns that
    user's id.  In a consistent world the new user is then what a lookup by
    that email and a lookup by that id find. *)
Theorem signUp_creates_account_found_by_lookups o dto w :
  consistent w →
  ¬ registered (SignUpReqDto.email dto) w →
  ∃ res w', signUp o dto w = (inr res, w') ∧
    let user := savedUser USER dto w in
    users w' = users w ++ [user] ∧
    UserResDto.id (AuthUserResDto.user res) = UserEntity.id user ∧
    UserResDto.email (AuthUserResDto.user res) = SignUpReqDto.email dto ∧
    findByEmail (SignUpReqDto.email dto) (users w') = Some user ∧
    findById (UserResDto.id (AuthUserResDto.user res)) (users w') = Some user ∧
    ∀ u, u ∈ users w → u ∈ users w'.
Proof.
  intros Hw Hno.
  destruct (signUp_run o dto w Hno) as (w' & Hrun & Hu & _).
  do 2 eexists. split; [exact Hrun|]. cbn. rewrite Hu.
  split; [done|]. split; [done|]. split; [done|]. split; [|split].
  - apply findByEmail_app_new; [|done]. intros v Hv Heq. apply Hno. by exists v.
  - apply findById_app_new; [|done]. intros v Hv Heq.
    apply (users_below w Hw) in Hv. lia.
  - intros u Hin. apply elem_of_app. by left.
Qed.

(** X2: [signUpAdmin] has two outcomes.  With an email that a user has it
    fails with [ConflictException] after the uniqueness check and writes
    nothing; otherwise it succeeds, whatever [bcrypt.compare] resolves to,
    and the row it saves and the user it returns have the role [ADMIN].
    It never fails with [UnauthorizedException]. *)
Theorem signUpAdmin_outcomes o dto w :
  (registered (SignUpReqDto.email dto) w →
     ∃ w', signUpAdmin o dto w = (inl ConflictException, w') ∧ sameState w w' ∧
           calls w' = calls w ++ [UserIsEmailUniq (SignUpReqDto.email dto)]) ∧
  (¬ registered (SignUpReqDto.email dto) w →
     ∃ res w', signUpAdmin o dto w = (inr res, w') ∧
       UserResDto.role (AuthUserResDto.user res) = ADMIN ∧
       users w' = users w ++ [savedUser ADMIN dto w]) ∧
  (signUpAdmin o dto w).1 ≠ inl UnauthorizedException.
Proof.
  split; [|split].
  - intros Hreg.
    destruct (signUps_conflict o dto w Hreg) as (_ & w'' & _ & Hrun & _ & Hs & _ & Hc).
    by exists w''.
  - intros Hno. destruct (signUpAdmin_run_full o dto w Hno) as (w' & Hrun & Hu & _).
    do 2 eexists. split; [exact Hrun|]. by split.
  - destruct (registered_dec (SignUpReqDto.email dto) w) as [Hreg|Hno].
    + destruct (signUps_conflict o dto w Hreg) as (_ & w'' & _ & -> & _). done.
    + destruct (signUpAdmin_run_full o dto w Hno) as (w' & -> & _). done.
Qed.

End SignUps.

(** ** Sign-in and refresh: when they succeed *)

Lemma knownUser_findById userId w :
  knownUser userId w →
  ∃ u, findById userId (users w) = Some u ∧ u ∈ users w ∧ UserEntity.id u = userId.
Proof.
  intros (v & Hv & Heq). destruct (findById userId (users w)) as [u|] eqn:Hf.
  - exists u. split; [done|]. by apply findById_Some.
  - exfalso. eapply findById_None in Hf; eauto.
Qed.

Section Credentials.
Context `{Bcrypt}.

(** The run of [signIn] when the email is a user's and bcrypt accepts the
    password. *)
Lemma signIn_run o1 o2 dto w u :
  findByEmail (SignInReqDto.email dto) (users w) = Some u →
  bcrypt_compare (SignInReqDto.password dto) (UserEntity.password u) = true →
  let userId := UserEntity.id u in
  let deviceId := SignInReqDto.deviceId dto in
  let tokens := mintPair userId deviceId (issued w) in
  ∃ res w', signIn o1 o2 dto w = (inr res, w') ∧
    UserResDto.id (AuthUserResDto.user res) = userId ∧
    AuthUserResDto.tokens res = tokens ∧
    users w' = users w ∧
    nextUserId w' = nextUserId w ∧
    issued w' = S (issued w) ∧
    entropy w' = entropy w ∧
    refreshTokens w' =
      filter (λ r, ¬ sameSession userId deviceId r) (refreshTokens w) ++
      [sessionRow userId deviceId tokens] ∧
    accessTokens w' =
      <[(userId, deviceId) := TokenPair.accessToken tokens]>
        (delete (userId, deviceId) (accessTokens w)).
Proof.
  intros Hf Hcmp userId deviceId tokens.
  destruct (findById_of_findByEmail _ _ _ Hf) as (u' & Hid & Heq).
  run_async. rewrite Hf. cbn. rewrite Hcmp. cbn. rewrite Hid. cbn.
  destruct o1, o2; cbn; do 2 eexists; (split; [reflexivity|]); cbn;
    rewrite ?Heq; by repeat split.
Qed.

End Credentials.

(** The run of [refreshToken] for the id of a user. *)
Lemma refreshToken_run o1 o2 userData w :
  knownUser (IUserData.userId userData) w →
  let userId := IUserData.userId userData in
  let deviceId := IUserData.deviceId userData in
  let tokens := mintPair userId deviceId (issued w) in
  ∃ w', refreshToken o1 o2 userData w = (inr tokens, w') ∧
    users w' = users w ∧
    nextUserId w' = nextUserId w ∧
    issued w' = S (issued w) ∧
    entropy w' = entropy w ∧
    refreshTokens w' =
      filter (λ r, ¬ sameSession userId deviceId r) (refreshTokens w) ++
      [sessionRow userId deviceId tokens] ∧
    accessTokens w' =
      <[(userId, deviceId) := TokenPair.accessToken tokens]>
        (delete (userId, deviceId) (accessTokens w)).
Proof.
  intros Hk userId deviceId tokens.
  destruct (knownUser_findById _ _ Hk) as (u & Hid & _ & Heq).
  run_async. rewrite Hid. cbn.
  destruct o1, o2; cbn; eexists; rewrite Heq; (split; [reflexivity|]); cbn;
    by repeat split.
Qed.

(** X4: [refreshToken] succeeds for the id of every existing user,
    whatever the session has stored, also when it has nothing stored (no
    sign-in before, or a logout): it does not look at the stored tokens.
    It returns the pair just minted and leaves the session with exactly one
    record and one entry holding it.  It fails exactly when no user has
    the id. *)
Theorem refreshToken_needs_only_the_user o1 o2 userData w :
  let userId := IUserData.userId userData in
  let deviceId := IUserData.deviceId userData in
  (knownUser userId w →
     ∃ w', refreshToken o1 o2 userData w =
             (inr (mintPair userId deviceId (issued w)), w') ∧
           oneSession userId deviceId (mintPair userId deviceId (issued w)) w' ∧
           users w' = users w) ∧
  ((∃ e w', refreshToken o1 o2 userData w = (inl e, w')) ↔ ¬ knownUser userId w).
Proof.
  intros userId deviceId. split; [|split].
  - intros Hk.
    destruct (refreshToken_run o1 o2 userData w Hk) as (w' & Hrun & Hu & _ & _ & _ & Hr & Ha).
    exists w'. split; [done|]. split; [by eapply oneSession_replaced | done].
  - intros (e & w' & Hfail) Hk.
    destruct (refreshToken_run o1 o2 userData w Hk) as (v & Hrun & _).
    rewrite Hrun in Hfail. discriminate Hfail.
  - intros Hno.
    destruct (refreshToken_cases o1 o2 userData w) as [(v & Hfail & _)|(v & _ & Hk & _)];
      [eauto | done].
Qed.

(** ** What a request leaves alone *)

Lemma sessions_sameData w w' userId deviceId :
  sameData w w' →
  refreshRecords userId deviceId w' = refreshRecords userId deviceId w ∧
  cacheEntries userId deviceId w' = cacheEntries userId deviceId w.
Proof.
  intros (_ & _ & _ & Hr & Ha). unfold refreshRecords, cacheEntries.
  by rewrite Hr, Ha.
Qed.

Lemma refreshRecords_app_other userId deviceId userId' deviceId' tokens
    (rs : list RefreshTokenEntity.t) :
  (userId', deviceId') ≠ (userId, deviceId) →
  filter (sameSession userId' deviceId') (rs ++ [sessionRow userId deviceId tokens]) =
  filter (sameSession userId' deviceId') rs.
Proof.
  intros Hne. rewrite filter_app, filter_cons.
  destruct (decide (sameSession userId' deviceId' (sessionRow userId deviceId tokens)))
    as [[Hu Hd]|_].
  - exfalso. apply Hne. cbn in Hu, Hd. congruence.
  - by rewrite filter_nil, app_nil_r.
Qed.

(** Another session after a flow that only adds. *)
Lemma other_session_added w w' userId deviceId tokens userId' deviceId' :
  (userId', deviceId') ≠ (userId, deviceId) →
  refreshTokens w' = refreshTokens w ++ [sessionRow userId deviceId tokens] →
  accessTokens w' = <[(userId, deviceId) := TokenPair.accessToken tokens]> (accessTokens w) →
  refreshRecords userId' deviceId' w' = refreshRecords userId' deviceId' w ∧
  cacheEntries userId' deviceId' w' = cacheEntries userId' deviceId' w.
Proof.
  intros Hne Hr Ha. unfold refreshRecords, cacheEntries. rewrite Hr, Ha. split.
  - by apply refreshRecords_app_other.
  - by rewrite lookup_insert_ne.
Qed.

(** Another session after a flow that deletes and then adds. *)
Lemma other_session_replaced w w' userId deviceId tokens userId' deviceId' :
  (userId', deviceId') ≠ (userId, deviceId) →
  refreshTokens w' =
    filter (λ r, ¬ sameSession userId deviceId r) (refreshTokens w) ++
    [sessionRow userId deviceId tokens] →
  accessTokens w' =
    <[(userId, deviceId) := TokenPair.accessToken tokens]>
      (delete (userId, deviceId) (accessTokens w)) →
  refreshRecords userId' deviceId' w' = refreshRecords userId' deviceId' w ∧
  cacheEntries userId' deviceId' w' = cacheEntries userId' deviceId' w.
Proof.
  intros Hne Hr Ha. unfold refreshRecords, cacheEntries. rewrite Hr, Ha. split.
  - rewrite refreshRecords_app_other by done. by apply refreshRecords_other_delete.
  - rewrite lookup_insert_ne by done. by rewrite lookup_delete_ne.
Qed.

(** Another session after [logout]. *)
Lemma other_session_removed w w' userId deviceId userId' deviceId' :
  (userId', deviceId') ≠ (userId, deviceId) →
  refreshTokens w' = filter (λ r, ¬ sameSession userId deviceId r) (refreshTokens w) →
  accessTokens w' = delete (userId, deviceId) (accessTokens w) →
  refreshRecords userId' deviceId' w' = refreshRecords userId' deviceId' w ∧
  cacheEntries userId' deviceId' w' = cacheEntries userId' deviceId' w.
Proof.
  intros Hne Hr Ha. unfold refreshRecords, cacheEntries. rewrite Hr, Ha. split.
  - by apply refreshRecords_other_delete.
  - by rewrite lookup_delete_ne.
Qed.

Section Frames.
Context `{Bcrypt}.

(** A session that is not the target of a request is as it was. *)
Lemma serve_other_session r w userId deviceId :
  targetSession r w ≠ Some (userId, deviceId) →
  refreshRecords userId deviceId (serve r w) = refreshRecords userId deviceId w ∧
  cacheEntries userId deviceId (serve r w) = cacheEntries userId deviceId w.
Proof.
  intros Hne.
  destruct r as [o dto|o dto|o1 o2 dto|o userData|o1 o2 userData]; cbn in *.
  - destruct (signUp_cases o dto w)
      as [(w' & -> & Hsame)|(res & w' & -> & _ & _ & _ & _ & _ & Hr & Ha)]; cbn.
    + by apply sessions_sameData.
    + eapply other_session_added; [|done..]. congruence.
  - destruct (signUpAdmin_cases o dto w)
      as [(w' & -> & Hsame)|(res & w' & -> & _ & _ & _ & _ & _ & Hr & Ha)]; cbn.
    + by apply sessions_sameData.
    + eapply other_session_added; [|done..]. congruence.
  - destruct (signIn_cases o1 o2 dto w)
      as [(w' & -> & Hsame)
         |(res & w' & -> & (u & Hf & Hid) & _ & _ & _ & _ & _ & Hr & Ha)]; cbn.
    + by apply sessions_sameData.
    + rewrite Hf in Hne. cbn in Hne. rewrite Hid in Hne.
      eapply other_session_replaced; [|done..]. congruence.
  - destruct (logout_run o userData w) as (w' & -> & _ & _ & _ & _ & Hr & Ha & _); cbn.
    eapply other_session_removed; [|done..]. congruence.
  - destruct (refreshToken_cases o1 o2 userData w)
      as [(w' & -> & Hsame)|(w' & -> & _ & _ & _ & _ & Hr & Ha)]; cbn.
    + by apply sessions_sameData.
    + eapply other_session_replaced; [|done..]. congruence.
Qed.

(** X5: a request changes the token stores only for its own session:
    the records and the cache entry of every other session (another user,
    or the same user on another device) are what they were, whether the
    request succeeds or throws. *)
Theorem requests_keep_other_sessions r w userId deviceId :
  targetSession r w ≠ Some (userId, deviceId) →
  refreshRecords userId deviceId (serve r w) = refreshRecords userId deviceId w ∧
  cacheEntries userId deviceId (serve r w) = cacheEntries userId deviceId w.
Proof. apply serve_other_session. Qed.

(** X7: no request removes or changes a user row: the rows before a
    request are a prefix of the rows after it, and neither the next primary
    key nor the next serial decreases. *)
Theorem requests_never_drop_users r w :
  users w `prefix_of` users (serve r w) ∧
  nextUserId w ≤ nextUserId (serve r w) ∧
  issued w ≤ issued (serve r w).
Proof.
  destruct r as [o dto|o dto|o1 o2 dto|o userData|o1 o2 userData]; cbn.
  - destruct (signUp_cases o dto w)
      as [(w' & -> & Hu & Hn & Hi & _)
         |(res & w' & -> & _ & _ & (u & Hu & _) & Hn & Hi & _)]; cbn;
      rewrite Hu, Hn, Hi; repeat split; try lia; try done; by apply prefix_app_r.
  - destruct (signUpAdmin_cases o dto w)
      as [(w' & -> & Hu & Hn & Hi & _)
         |(res & w' & -> & _ & _ & (u & Hu & _) & Hn & Hi & _)]; cbn;
      rewrite Hu, Hn, Hi; repeat split; try lia; try done; by apply prefix_app_r.
  - destruct (signIn_cases o1 o2 dto w)
      as [(w' & -> & Hu & Hn & Hi & _)
         |(res & w' & -> & _ & _ & _ & Hu & Hn & Hi & _)]; cbn;
      rewrite Hu, Hn, Hi; repeat split; try lia; done.
  - destruct (logout_run o userData w) as (w' & -> & Hu & Hn & Hi & _); cbn.
    by rewrite Hu, Hn, Hi.
  - destruct (refreshToken_cases o1 o2 userData w)
      as [(w' & -> & Hu & Hn & Hi & _)|(w' & -> & _ & Hu & Hn & Hi & _)]; cbn;
      rewrite Hu, Hn, Hi; repeat split; try lia; done.
Qed.

End Frames.

(** ** Sign-up followed by sign-in *)

Section Composition.
Context `{Bcrypt}.

(** X10: after a [signUp] with an email that no user has, a [signIn] with
    the same email, password and device succeeds whenever bcrypt accepts
    the password against the hash it produced: it returns the same user
    with a second token pair, both of whose tokens differ from those of the
    sign-up, and the session then holds exactly the second pair. *)
Theorem signUp_then_signIn o o1 o2 dto w :
  ¬ registered (SignUpReqDto.email dto) w →
  bcrypt_compare (SignUpReqDto.password dto)
    (bcrypt_hash (entropy w) (SignUpReqDto.password dto) 10) = true →
  ∃ res1 w1 res2 w2,
    signUp o dto w = (inr res1, w1) ∧
    signIn o1 o2 (signInOf dto) w1 = (inr res2, w2) ∧
    UserResDto.id (AuthUserResDto.user res2) = UserResDto.id (AuthUserResDto.user res1) ∧
    TokenPair.accessToken (AuthUserResDto.tokens res2) ≠
      TokenPair.accessToken (AuthUserResDto.tokens res1) ∧
    TokenPair.refreshToken (AuthUserResDto.tokens res2) ≠
      TokenPair.refreshToken (AuthUserResDto.tokens res1) ∧
    oneSession (UserResDto.id (AuthUserResDto.user res1)) (SignUpReqDto.deviceId dto)
      (AuthUserResDto.tokens res2) w2.
Proof.
  intros Hno Hcmp.
  destruct (signUp_run o dto w Hno) as (w1 & Hrun1 & Hu & _ & Hi & _).
  assert (findByEmail (SignInReqDto.email (signInOf dto)) (users w1) =
          Some (savedUser USER dto w)) as Hf.
  { rewrite Hu. apply findByEmail_app_new; [|done].
    intros v Hv Heq. apply Hno. by exists v. }
  destruct (signIn_run o1 o2 (signInOf dto) w1 _ Hf Hcmp)
    as (res2 & w2 & Hrun2 & Hid & Htok & _ & _ & _ & _ & Hr & Ha).
  assert (oneSession (nextUserId w) (SignUpReqDto.deviceId dto)
            (AuthUserResDto.tokens res2) w2) as Hone.
  { rewrite Htok. by eapply oneSession_replaced. }
  eexists _, w1, res2, w2. split; [exact Hrun1|]. split; [exact Hrun2|].
  rewrite Hid, Htok, Hi. cbn. split; [done|].
  split; [intros Heq; injection Heq; lia|].
  split; [intros Heq; injection Heq; lia|].
  rewrite Htok, Hi in Hone. exact Hone.
Qed.

End Composition.

(** ** Completion order *)

Section Orders.
Context `{Bcrypt}.

Lemma signUp_order o o' dto w : sameRun (signUp o dto w) (signUp o' dto w).
Proof.
  destruct (registered_dec (SignUpReqDto.email dto) w) as [Hreg|Hno].
  - destruct (signUps_conflict o dto w Hreg)
      as (w1 & _ & -> & _ & ((Hu & Hn & Hi & Hr & Ha) & He) & _ & Hc & _).
    destruct (signUps_conflict o' dto w Hreg)
      as (w2 & _ & -> & _ & ((Hu' & Hn' & Hi' & Hr' & Ha') & He') & _ & Hc' & _).
    split; [done|]. cbn. split; [|by rewrite Hc, Hc'].
    repeat split; congruence.
  - destruct (signUp_run o dto w Hno) as (w1 & -> & Hu & Hn & Hi & He & Hr & Ha & Hc).
    destruct (signUp_run o' dto w Hno) as (w2 & -> & Hu' & Hn' & Hi' & He' & Hr' & Ha' & Hc').
    split; [done|]. cbn. split; [|by rewrite Hc, Hc'].
    repeat split; congruence.
Qed.

Lemma signUpAdmin_order o o' dto w : sameRun (signUpAdmin o dto w) (signUpAdmin o' dto w).
Proof.
  destruct (registered_dec (SignUpReqDto.email dto) w) as [Hreg|Hno].
  - destruct (signUps_conflict o dto w Hreg)
      as (_ & w1 & _ & -> & _ & ((Hu & Hn & Hi & Hr & Ha) & He) & _ & Hc).
    destruct (signUps_conflict o' dto w Hreg)
      as (_ & w2 & _ & -> & _ & ((Hu' & Hn' & Hi' & Hr' & Ha') & He') & _ & Hc').
    split; [done|]. cbn. split; [|by rewrite Hc, Hc'].
    repeat split; congruence.
  - destruct (signUpAdmin_run_full o dto w Hno)
      as (w1 & -> & Hu & Hn & Hi & He & Hr & Ha & Hc).
    destruct (signUpAdmin_run_full o' dto w Hno)
      as (w2 & -> & Hu' & Hn' & Hi' & He' & Hr' & Ha' & Hc').
    split; [done|]. cbn. split; [|by rewrite Hc, Hc'].
    repeat split; congruence.
Qed.

Lemma signIn_order o1 o2 o1' o2' dto w :
  sameRun (signIn o1 o2 dto w) (signIn o1' o2' dto w).
Proof.
  unfold sameRun. run_async.
  destruct (findByEmail (SignInReqDto.email dto) (users w)) as [u|]; cbn.
  2:{ by repeat split. }
  destruct (bcrypt_compare _ _); cbn.
  2:{ by repeat split. }
  destruct (findById (UserEntity.id u) (users w)) as [u'|]; cbn.
  2:{ by repeat split. }
  destruct o1, o2, o1', o2'; cbn; same_run.
Qed.

End Orders.

Lemma logout_order o o' userData w : sameRun (logout o userData w) (logout o' userData w).
Proof. unfold sameRun. run_async. destruct o, o'; cbn; same_run. Qed.

Lemma refreshToken_order o1 o2 o1' o2' userData w :
  sameRun (refreshToken o1 o2 userData w) (refreshToken o1' o2' userData w).
Proof.
  unfold sameRun. run_async.
  destruct (findById (IUserData.userId userData) (users w)) as [u'|]; cbn.
  2:{ by repeat split. }
  destruct o1, o2, o1', o2'; cbn; same_run.
Qed.

(** X11: the result of every method, the user rows, the refresh-token
    records, the cache and the generators after it do not depend on which
    operation of a [Promise.all] completes first; the calls made are the
    same up to their order. *)
Theorem completion_order_unobservable `{Bcrypt} w :
  (∀ o o' dto, sameRun (signUp o dto w) (signUp o' dto w)) ∧
  (∀ o o' dto, sameRun (signUpAdmin o dto w) (signUpAdmin o' dto w)) ∧
  (∀ o1 o2 o1' o2' dto, sameRun (signIn o1 o2 dto w) (signIn o1' o2' dto w)) ∧
  (∀ o o' userData, sameRun (logout o userData w) (logout o' userData w)) ∧
  (∀ o1 o2 o1' o2' userData,
     sameRun (refreshToken o1 o2 userData w) (refreshToken o1' o2' userData w)).
Proof.
  split; [|split; [|split; [|split]]]; intros.
  - apply signUp_order.
  - apply signUpAdmin_order.
  - apply signIn_order.
  - apply logout_order.
  - apply refreshToken_order.
Qed.

(** ** More flows on the concrete world *)

Lemma carol_not_registered : ¬ registered (SignUpReqDto.email carol) aliceWorld.
Proof.
  intros (u & Hu & Heq). apply list_elem_of_singleton in Hu as ->. discriminate Heq.
Qed.

Lemma aliceOnD2_elsewhere :
  targetSession (SignIn FirstThenSecond FirstThenSecond aliceOnD2) aliceWorld ≠
  Some (0, "d1").
Proof. discriminate. Qed.

Lemma signUp_creates_account_found_by_lookups_witness :
  consistent aliceWorld ∧
  ¬ registered (SignUpReqDto.email carol) aliceWorld ∧
  ∃ res w', @signUp soundBcrypt FirstThenSecond carol aliceWorld = (inr res, w') ∧
    let user := @savedUser soundBcrypt USER carol aliceWorld in
    users w' = users aliceWorld ++ [user] ∧
    UserResDto.id (AuthUserResDto.user res) = UserEntity.id user ∧
    UserResDto.email (AuthUserResDto.user res) = SignUpReqDto.email carol ∧
    findByEmail (SignUpReqDto.email carol) (users w') = Some user ∧
    findById (UserResDto.id (AuthUserResDto.user res)) (users w') = Some user ∧
    ∀ u, u ∈ users aliceWorld → u ∈ users w'.
Proof.
  split; [exact aliceWorld_consistent|]. split; [exact carol_not_registered|].
  exact (@signUp_creates_account_found_by_lookups soundBcrypt FirstThenSecond carol
           aliceWorld aliceWorld_consistent carol_not_registered).
Defined.

(** Alice signs in on a second device: her session on d1 is as it was. *)
Lemma requests_keep_other_sessions_witness :
  targetSession (SignIn FirstThenSecond FirstThenSecond aliceOnD2) aliceWorld ≠
    Some (0, "d1") ∧
  refreshRecords 0 "d1"
    (@serve soundBcrypt (SignIn FirstThenSecond FirstThenSecond aliceOnD2) aliceWorld) =
    refreshRecords 0 "d1" aliceWorld ∧
  cacheEntries 0 "d1"
    (@serve soundBcrypt (SignIn FirstThenSecond FirstThenSecond aliceOnD2) aliceWorld) =
    cacheEntries 0 "d1" aliceWorld.
Proof.
  split; [exact aliceOnD2_elsewhere|].
  exact (@requests_keep_other_sessions soundBcrypt
           (SignIn FirstThenSecond FirstThenSecond aliceOnD2) aliceWorld 0 "d1"
           aliceOnD2_elsewhere).
Defined.

Lemma signUp_then_signIn_witness :
  ¬ registered (SignUpReqDto.email carol) aliceWorld ∧
  @bcrypt_compare soundBcrypt (SignUpReqDto.password carol)
    (@bcrypt_hash soundBcrypt (entropy aliceWorld) (SignUpReqDto.password carol) 10) =
    true ∧
  ∃ res1 w1 res2 w2,
    @signUp soundBcrypt FirstThenSecond carol aliceWorld = (inr res1, w1) ∧
    @signIn soundBcrypt SecondThenFirst FirstThenSecond (signInOf carol) w1 =
      (inr res2, w2) ∧
    UserResDto.id (AuthUserResDto.user res2) = UserResDto.id (AuthUserResDto.user res1) ∧
    TokenPair.accessToken (AuthUserResDto.tokens res2) ≠
      TokenPair.accessToken (AuthUserResDto.tokens res1) ∧
    TokenPair.refreshToken (AuthUserResDto.tokens res2) ≠
      TokenPair.refreshToken (AuthUserResDto.tokens res1) ∧
    oneSession (UserResDto.id (AuthUserResDto.user res1)) (SignUpReqDto.deviceId carol)
      (AuthUserResDto.tokens res2) w2.
Proof.
  split; [exact carol_not_registered|]. split; [reflexivity|].
  exact (@signUp_then_signIn soundBcrypt FirstThenSecond SecondThenFirst FirstThenSecond
           carol aliceWorld carol_not_registered eq_refl).
Defined.

(** [refreshToken] after [logout]: Alice has no session left on d1 and gets
    a new one. *)
Example refreshToken_after_logout :
  noSession 0 "d1" loggedOutWorld ∧
  let r := refreshToken FirstThenSecond FirstThenSecond aliceData loggedOutWorld in
  r.1 = inr (mintPair 0 "d1" 1) ∧ oneSession 0 "d1" (mintPair 0 "d1" 1) r.2.
Proof. by repeat split. Qed.
